(** * frrbot (polychaeta.py): the delayed auto-close subsystem

    A shallow embedding of [polychaeta.py]: the job identity scheme, the
    three scheduler functions ([close_issue], [schedule_close_issue],
    [cancel_close_issue]), the webhook handlers and the Flask entry point,
    followed by the properties of the specification that concern them.

    Python values are modelled as follows: [str] as [string] (the bytes of
    its UTF-8 encoding; case folding is the ASCII one), [int] as [Z], a
    naive [datetime] as a number of seconds in [Z] and a parsed one as a
    [datetime], naive or aware of a time zone, a decoded JSON payload as
    the inductive type [json], the scheduler's job store as a [gmap] from
    job ids to jobs, and an exception as a value of type [exn] threaded by
    the monad [M]. *)

From Stdlib Require Import ZArith String Ascii List DecimalString DecimalZ.
From stdpp Require Import gmap strings list fin_maps.

Local Open Scope string_scope.

(** ** Python string operations *)

Module Py.

(** [str.lower], on the ASCII letters. *)
Definition lower_ascii (c : ascii) : ascii :=
  let n := nat_of_ascii c in
  if ((65 <=? n)%nat && (n <=? 90)%nat)%bool then ascii_of_nat (n + 32) else c.

Fixpoint lower (s : string) : string :=
  match s with
  | EmptyString => EmptyString
  | String c t => String (lower_ascii c) (lower t)
  end.

(** [s.startswith(p)]. *)
Fixpoint startswith (p s : string) : bool :=
  match p, s with
  | EmptyString, _ => true
  | String _ _, EmptyString => false
  | String a p', String b s' => if Ascii.eqb a b then startswith p' s' else false
  end.

(** [s[n:]]. *)
Fixpoint drop (n : nat) (s : string) : string :=
  match n, s with
  | O, _ => s
  | S _, EmptyString => EmptyString
  | S n', String _ t => drop n' t
  end.

(** [sub in s]. *)
Fixpoint contains (sub s : string) : bool :=
  startswith sub s ||
  match s with
  | EmptyString => false
  | String _ t => contains sub t
  end.

(** [s.partition(sep)], for a non-empty [sep]: the text before the first
    occurrence of [sep], [sep] itself and the text after it, or
    [(s, "", "")] when [sep] does not occur. *)
Fixpoint partition (sep s : string) : string * string * string :=
  if startswith sep s then (EmptyString, sep, drop (String.length sep) s)
  else match s with
       | EmptyString => (EmptyString, EmptyString, EmptyString)
       | String c t =>
           let '(a, b, d) := partition sep t in (String c a, b, d)
       end.

(** [s.rpartition(sep)], for a non-empty [sep]: the split at the last
    occurrence of [sep], or [("", "", s)] when [sep] does not occur. *)
Fixpoint rpartition (sep s : string) : string * string * string :=
  match s with
  | EmptyString => (EmptyString, EmptyString, EmptyString)
  | String c t =>
      let '(a, b, d) := rpartition sep t in
      match b with
      | String _ _ => (String c a, b, d)
      | EmptyString =>
          if startswith sep s then (EmptyString, sep, drop (String.length sep) s)
          else (EmptyString, EmptyString, s)
      end
  end.

(** [str(n)] for an [int]: the decimal numeral, with a leading minus sign
    for a negative number. *)
Definition str_int (n : Z) : string := NilEmpty.string_of_int (Z.to_int n).

(** The inverse reading of a decimal numeral. *)
Definition int_of_str (s : string) : option Z :=
  option_map Z.of_int (NilEmpty.int_of_string s).

(** [c] does not occur in [s]. *)
Fixpoint free_of (c : ascii) (s : string) : bool :=
  match s with
  | EmptyString => true
  | String a t => negb (Ascii.eqb a c) && free_of c t
  end.

End Py.

(** ** Job identity scheme *)

(** The expression ["{}@@@{}".format(reponame, issuenum)] of lines 58, 79
    and 135. *)
Definition make_id (reponame : string) (issuenum : Z) : string :=
  reponame +:+ "@@@" +:+ Py.str_int issuenum.

(** Modelled from the spec: [parse_id], the inverse of the id construction;
    the source never reads an id back (the job carries the pair in its
    [args]).  The id is split at its last separator and the text after it
    is read as a decimal numeral. *)
Definition parse_id (id : string) : option (string * Z) :=
  let '(reponame, sep, tail) := Py.rpartition "@@@" id in
  match sep with
  | EmptyString => None
  | String _ _ =>
      match Py.int_of_str tail with
      | Some n => Some (reponame, n)
      | None => None
      end
  end.

(** ** Exceptions, the world and the monad of effects *)

(** The Python exceptions the modelled code can raise. *)
Inductive exn :=
| KeyError
| TypeError
| AttributeError
| AssertionError
| GithubException
| JobLookupError
| BadRequest.

Global Instance exn_eq_dec : EqDecision exn.
Proof. solve_decision. Defined.

(** A scheduled job of the APScheduler store: its [args] are the arguments
    [close_issue] is called with when the job fires; the function of every
    job is [close_issue]. *)
Record Job := mkJob {
  run_date : Z;
  args : string * Z;
}.

Global Instance Job_eq_dec : EqDecision Job.
Proof. solve_decision. Defined.

(** The calls of the GitHub API that change something on the platform. *)
Inductive call :=
| IssueEdit (repo : string) (num : Z) (state : string)
| RemoveFromLabels (repo : string) (num : Z) (label : string)
| AddToLabels (repo : string) (num : Z) (label : string)
| CreateComment (repo : string) (num : Z) (body : string)
| CreateReaction (repo : string) (num : Z) (comment : Z) (kind : string)
| CreateReview (repo : string) (pull : Z) (body : string) (event : string)
| SetLabels (repo : string) (pull : Z) (labels : gset string).

(** What a run of the code can change: the job store of the global
    [scheduler], the calls accepted by GitHub so far, and the lines written
    through [app.logger]. *)
Record world := mkWorld {
  jobs : gmap string Job;
  calls : list call;
  logs : list string;
}.

(** The GitHub service as the code sees it.  Every answer may depend on the
    calls accepted so far; a missing answer ([false], [None]) is a
    [GithubException]. *)
Record github := mkGithub {
  gh_get_repo : list call -> string -> bool;
  gh_get_issue : list call -> string -> Z -> option Z;
  gh_get_collaborator_permission : list call -> string -> string -> option string;
  gh_get_comment : list call -> string -> Z -> Z -> bool;
  gh_get_pull : list call -> string -> Z -> bool;
  gh_get_commits : list call -> string -> Z -> option (list string);
  gh_accepts : list call -> call -> bool;
}.

(** A [datetime.datetime] as [dateparser.parse] returns it: a number of
    seconds, naive or, when the text names a time zone, aware of it. *)
Inductive datetime :=
| Naive (t : Z)
| Aware (t : Z).

(** The module-level globals and the external collaborators: [g], [my_user],
    [whsec], the clock read by [datetime.datetime.now()], which is naive,
    [dateparser.parse] and the HMAC-SHA1 hex digest. *)
Record env := mkEnv {
  g : github;
  my_user : string;
  whsec : string;
  now : Z;
  dateparser_parse : Z -> string -> option datetime;
  hmac_sha1_hexdigest : string -> string -> string;
}.

(** A computation returns a value or raises, and leaves a world behind in
    both cases. *)
Definition M (A : Type) : Type := world -> world * (exn + A).

Global Instance M_ret : MRet M := fun A (x : A) w => (w, inr x).

Global Instance M_bind : MBind M := fun A B (f : A -> M B) (m : M A) w =>
  match m w with
  | (w', inl e) => (w', inl e)
  | (w', inr a) => f a w'
  end.

Definition raise {A : Type} (e : exn) : M A := fun w => (w, inl e).

(** [try: m except e: h()], for the exceptions selected by [catches]. *)
Definition try_except {A : Type} (m : M A) (catches : exn -> bool) (h : M A) : M A :=
  fun w =>
    match m w with
    | (w', inl e) => if catches e then h w' else (w', inl e)
    | r => r
    end.

Definition is_exn (e0 e : exn) : bool := bool_decide (e = e0).

(** [app.logger.warning(msg)]. *)
Definition log (msg : string) : M unit :=
  fun w => (mkWorld (jobs w) (calls w) (logs w ++ [msg]), inr tt).

(** ** The scheduler (APScheduler's [BackgroundScheduler] over its job store) *)

Module scheduler.

(** [scheduler.add_job(close_issue, run_date=when, args=a, id=id,
    replace_existing=True)]: the job is stored under [id], in the place of
    the job that had this id, if any. *)
Definition add_job (when : Z) (a : string * Z) (id : string) : M unit :=
  fun w => (mkWorld (<[id := mkJob when a]> (jobs w)) (calls w) (logs w), inr tt).

(** [scheduler.get_job(id)]: the job, or [None]. *)
Definition get_job (id : string) : M (option Job) :=
  fun w => (w, inr (jobs w !! id)).

(** [scheduler.remove_job(id)]: raises [JobLookupError] when no job has
    this id. *)
Definition remove_job (id : string) : M unit :=
  fun w =>
    match jobs w !! id with
    | Some _ => (mkWorld (delete id (jobs w)) (calls w) (logs w), inr tt)
    | None => (w, inl JobLookupError)
    end.

End scheduler.

(** ** The GitHub objects *)

Record Repository := mkRepository { full_name : string }.

Record Issue := mkIssue {
  repository : Repository;
  number : Z;
  id : Z;
}.

Section github_api.
Context (E : env).

(** A read of the API: [None] is a [GithubException]. *)
Definition api_read {A : Type} (ask : github -> list call -> option A) : M A :=
  fun w =>
    match ask (g E) (calls w) with
    | Some a => (w, inr a)
    | None => (w, inl GithubException)
    end.

(** A call that changes the platform: recorded when GitHub accepts it. *)
Definition api_call (c : call) : M unit :=
  fun w =>
    if gh_accepts (g E) (calls w) c
    then (mkWorld (jobs w) (calls w ++ [c]) (logs w), inr tt)
    else (w, inl GithubException).

(** [g.get_repo(rn)]; the repository answers to the name it was asked by. *)
Definition get_repo (rn : string) : M Repository :=
  api_read (fun gh cs => if gh_get_repo gh cs rn then Some (mkRepository rn) else None).

(** [repo.get_issue(num)]. *)
Definition get_issue (repo : Repository) (num : Z) : M Issue :=
  api_read (fun gh cs => mkIssue repo num <$> gh_get_issue gh cs (full_name repo) num).

(** [repo.get_collaborator_permission(login)]. *)
Definition get_collaborator_permission (repo : Repository) (login : string) : M string :=
  api_read (fun gh cs => gh_get_collaborator_permission gh cs (full_name repo) login).

Definition issue_edit (issue : Issue) (state : string) : M unit :=
  api_call (IssueEdit (full_name (repository issue)) (number issue) state).

Definition remove_from_labels (issue : Issue) (label : string) : M unit :=
  api_call (RemoveFromLabels (full_name (repository issue)) (number issue) label).

Definition add_to_labels (issue : Issue) (label : string) : M unit :=
  api_call (AddToLabels (full_name (repository issue)) (number issue) label).

Definition create_comment (issue : Issue) (body : string) : M unit :=
  api_call (CreateComment (full_name (repository issue)) (number issue) body).

(** [issue.get_comment(cid)], the comment being its id once found. *)
Definition get_comment (issue : Issue) (cid : Z) : M Z :=
  api_read (fun gh cs =>
    if gh_get_comment gh cs (full_name (repository issue)) (number issue) cid
    then Some cid else None).

Definition create_reaction (issue : Issue) (cid : Z) (kind : string) : M unit :=
  api_call (CreateReaction (full_name (repository issue)) (number issue) cid kind).

End github_api.

(** ** Global data *)

Definition autoclosemsg : string :=
  "This issue will be automatically closed in one week unless there is further activity.".
Definition noautoclosemsg : string :=
  "This issue will no longer be automatically closed.".
Definition triggerlabel : string := "autoclose".

(** [datetime.timedelta(weeks=1)], in seconds. *)
Definition one_week : Z := 7 * 24 * 60 * 60.

(** ** Scheduler functions *)

Section scheduler_functions.
Context (E : env).

Definition close_issue (rn : string) (num : Z) : M unit :=
  log ("Closing issue #" +:+ Py.str_int num);;
  repo ← get_repo E rn;
  issue ← get_issue E repo num;
  issue_edit E issue "closed";;
  try_except (remove_from_labels E issue triggerlabel)
             (is_exn GithubException) (mret tt).

Definition schedule_close_issue (issue : Issue) (when : Z) : M unit :=
  let reponame := full_name (repository issue) in
  let issuenum := number issue in
  let issueid := make_id reponame issuenum in
  log ("[-] Scheduling issue #" +:+ Py.str_int issuenum +:+
       " for autoclose (id: " +:+ issueid +:+ ")");;
  scheduler.add_job when (reponame, issuenum) issueid.

Definition cancel_close_issue (issue : Issue) : M unit :=
  let reponame := full_name (repository issue) in
  let issuenum := id issue in
  let issueid := make_id reponame issuenum in
  log ("[-] Descheduling issue #" +:+ Py.str_int issuenum +:+ " for closing");;
  scheduler.remove_job issueid.

End scheduler_functions.

(** ** Decoded JSON payloads *)

(** A value decoded by [request.get_json()]; numbers are integers and an
    object is the list of its items, read by its first item of a key. *)
#[warnings="-register-all"]
Inductive json :=
| JNull
| JBool (b : bool)
| JNum (n : Z)
| JStr (s : string)
| JArr (l : list json)
| JObj (items : list (string * json)).

Fixpoint assoc {A : Type} (k : string) (l : list (string * A)) : option A :=
  match l with
  | [] => None
  | (k', v) :: l' => if String.eqb k k' then Some v else assoc k l'
  end.

(** [j[k]]: [KeyError] when the object has no such key, [TypeError] when
    [j] is not an object. *)
Definition subscript (j : json) (k : string) : exn + json :=
  match j with
  | JObj items =>
      match assoc k items with
      | Some v => inr v
      | None => inl KeyError
      end
  | _ => inl TypeError
  end.

(** [j[k1][k2]]. *)
Definition subscript2 (j : json) (k1 k2 : string) : exn + json :=
  match subscript j k1 with
  | inr v => subscript v k2
  | inl e => inl e
  end.

(** An expression that reads nothing of the world. *)
Definition pure {A : Type} (r : exn + A) : M A := fun w => (w, r).

Definition getitem (j : json) (k : string) : M json := pure (subscript j k).

Definition getitem2 (j : json) (k1 k2 : string) : M json := pure (subscript2 j k1 k2).

(** [v == s] for a [str] [s]. *)
Definition json_eq_str (v : json) (s : string) : bool :=
  match v with
  | JStr s' => String.eqb s' s
  | _ => false
  end.

(** The response of a Flask view. *)
Record Response := mkResponse {
  resp_body : string;
  status : Z;
}.

Definition OK_200 : Response := mkResponse "OK" 200.

(** ** Webhook handlers *)

Section handlers.
Context (E : env).

(** [g.get_repo(v)] on a payload value: PyGithub asserts a [str] or an
    [int]; a number is taken as a repository id, which no payload carries
    in a name field and which the model answers as an unknown
    repository. *)
Definition get_repo_json (v : json) : M Repository :=
  match v with
  | JStr rn => get_repo E rn
  | JNum _ | JBool _ => raise GithubException
  | _ => raise AssertionError
  end.

(** [repo.get_issue(v)] on a payload value: PyGithub asserts an [int];
    a boolean passes the assertion and names no issue. *)
Definition get_issue_json (repo : Repository) (v : json) : M Issue :=
  match v with
  | JNum n => get_issue E repo n
  | JBool _ => raise GithubException
  | _ => raise AssertionError
  end.

(** [repo.get_collaborator_permission(v)]: PyGithub asserts a [str]. *)
Definition get_collaborator_permission_json (repo : Repository) (v : json) : M string :=
  match v with
  | JStr login => get_collaborator_permission E repo login
  | _ => raise AssertionError
  end.

(** [issue.get_comment(v)]. *)
Definition get_comment_json (issue : Issue) (v : json) : M Z :=
  match v with
  | JNum cid => get_comment E issue cid
  | JBool _ => raise GithubException
  | _ => raise AssertionError
  end.

Definition issue_labeled (j : json) : M Response :=
  reponame ← getitem2 j "repository" "full_name";
  issuenum ← getitem2 j "issue" "number";
  repo ← get_repo_json reponame;
  issue ← get_issue_json repo issuenum;
  labelname ← getitem2 j "label" "name";
  (if json_eq_str labelname triggerlabel then
     let closedate := (now E + one_week)%Z in
     schedule_close_issue issue closedate;;
     create_comment E issue autoclosemsg
   else mret tt);;
  mret OK_200.

(** The trigger text ["@{} autoclose".format(my_user)]. *)
Definition trigger : string := "@" +:+ my_user E +:+ " autoclose".

Definition issue_comment_created (j : json) : M Response :=
  reponame ← getitem2 j "repository" "full_name";
  issuenum ← getitem2 j "issue" "number";
  repo ← get_repo_json reponame;
  issue ← get_issue_json repo issuenum;
  (* the id is formatted on line 135, before the two lookups; the
     formatting has no effect and its result is first used below *)
  let issueid := make_id (full_name repo) (number issue) in
  body ← getitem2 j "comment" "body";
  sender ← getitem2 j "sender" "login";
  perm ← get_collaborator_permission_json repo sender;
  log ("Trigger: " +:+ trigger);;
  log ("Perm: " +:+ perm);;
  body ← match body with
         | JStr b => mret b
         | _ => raise AttributeError
         end;
  (if Py.contains (Py.lower trigger) (Py.lower body) && String.eqb perm "admin" then
     match dateparser_parse E (now E) (Py.partition "autoclose" body).2 with
     | Some (Naive closedate) =>
         if (now E <? closedate)%Z then
           schedule_close_issue issue closedate;;
           add_to_labels E issue "autoclose";;
           cid ← getitem2 j "comment" "id";
           comment ← get_comment_json issue cid;
           create_reaction E issue comment "+1"
         else mret tt
     | Some (Aware _) =>
         (* [closedate > datetime.datetime.now()] compares an aware with a
            naive datetime *)
         raise TypeError
     | None => mret tt
     end
   else
     job ← scheduler.get_job issueid;
     match job with
     | Some _ =>
         scheduler.remove_job issueid;;
         remove_from_labels E issue triggerlabel;;
         create_comment E issue noautoclosemsg
     | None => mret tt
     end);;
  mret OK_200.

End handlers.

(** ** Pull requests *)

Definition pr_greeting_msg : string :=
  "Thanks for your contribution to FRR!" +:+ String "010" (String "010" "").
Definition pr_warn_signoff_msg : string :=
  "* One of your commits is missing a `Signed-off-by` line; we can't accept your contribution until all of your commits have one"
  +:+ String "010" "".
Definition pr_warn_commit_msg : string :=
  "* One of your commits has an improperly formatted commit message" +:+ String "010" "".
Definition pr_guidelines_ref_msg : string :=
  String "010" "If you are a new contributor to FRR, please see our [contributing guidelines](http://docs.frrouting.org/projects/dev-guide/en/latest/workflow.html#coding-practices-style)."
  +:+ String "010" "".

Definition label_map : list (string * string) :=
  [ ("babeld", "babel"); ("bfdd", "bfd"); ("bgpd", "bgp"); ("debian", "packaging");
    ("doc", "documentation"); ("docker", "docker"); ("eigrpd", "eigrp"); ("fpm", "fpm");
    ("isisd", "isis"); ("ldpd", "ldp"); ("lib", "libfrr"); ("nhrpd", "nhrp");
    ("ospf6d", "ospfv3"); ("ospfd", "ospf"); ("pbrd", "pbr"); ("pimd", "pim");
    ("pkgsrc", "packaging"); ("python", "clippy"); ("redhat", "packaging"); ("ripd", "rip");
    ("ripngd", "ripng"); ("sharpd", "sharp"); ("snapcraft", "packaging");
    ("solaris", "packaging"); ("staticd", "staticd"); ("tests", "tests"); ("tools", "tools");
    ("vtysh", "vtysh"); ("vrrp", "vrrp"); ("watchfrr", "watchfrr"); ("yang", "yang");
    ("zebra", "zebra");
    ("configure.ac", "build"); ("Makefile.am", "build"); ("bootstrap.sh", "build") ].

Module commit_message.

(** The string of the bytes [l]. *)
Definition bytes (l : list nat) : string := string_of_list_ascii (ascii_of_nat <$> l).

(** The characters [str.strip] removes, in their UTF-8 encoding: the white
    space of Unicode, which is U+0009 to U+000D, U+001C to U+0020, U+0085,
    U+00A0, U+1680, U+2000 to U+200A, U+2028, U+2029, U+202F, U+205F and
    U+3000. *)
Definition whitespace : list string :=
  bytes <$>
    [ [9]; [10]; [11]; [12]; [13]; [28]; [29]; [30]; [31]; [32];
      [194; 133]; [194; 160]; [225; 154; 128];
      [226; 128; 128]; [226; 128; 129]; [226; 128; 130]; [226; 128; 131];
      [226; 128; 132]; [226; 128; 133]; [226; 128; 134]; [226; 128; 135];
      [226; 128; 136]; [226; 128; 137]; [226; 128; 138];
      [226; 128; 168]; [226; 128; 169]; [226; 128; 175];
      [226; 129; 159]; [227; 128; 128] ].

(** What follows the first of the texts [ws] that [s] starts with. *)
Fixpoint after_any (ws : list string) (s : string) : option string :=
  match ws with
  | [] => None
  | w :: ws' =>
      if Py.startswith w s then Some (Py.drop (String.length w) s)
      else after_any ws' s
  end.

(** What follows the white space character [s] starts with, if any. *)
Definition after_space (s : string) : option string := after_any whitespace s.

(** [s] without the first [n] white space characters it starts with. *)
Fixpoint lstrip_upto (n : nat) (s : string) : string :=
  match n with
  | O => s
  | S n' =>
      match after_space s with
      | Some t => lstrip_upto n' t
      | None => s
      end
  end.

(** [s.lstrip()]; a text has no more characters than bytes. *)
Definition lstrip (s : string) : string := lstrip_upto (String.length s) s.

(** [s.rstrip()]: [s] up to its longest end of white space only. *)
Fixpoint rstrip (s : string) : string :=
  match s with
  | EmptyString => EmptyString
  | String c t =>
      if String.eqb (lstrip s) EmptyString then EmptyString
      else String c (rstrip t)
  end.

Definition strip (s : string) : string := rstrip (lstrip s).

(** [s.split(sep)] for a separator of one character. *)
Fixpoint split (sep : ascii) (s : string) : list string :=
  match s with
  | EmptyString => [EmptyString]
  | String c t =>
      if Ascii.eqb c sep then EmptyString :: split sep t
      else match split sep t with
           | h :: r => String c h :: r
           | [] => [String c EmptyString]
           end
  end.

(** The longest prefix without a colon or a line feed, and what follows it. *)
Fixpoint span_summary (s : string) : string * string :=
  match s with
  | EmptyString => (EmptyString, EmptyString)
  | String c t =>
      if Ascii.eqb c ":" || Ascii.eqb c "010" then (EmptyString, s)
      else let '(h, r) := span_summary t in (String c h, r)
  end.

(** The group of [re.match(r"^([^:\n]+):", msg)], when it matches. *)
Definition re_match (msg : string) : option string :=
  match span_summary msg with
  | (String c h, String ":" _) => Some (String c h)
  | _ => None
  end.

(** The labels of one commit message. *)
Definition lbls (prefix : string) : gset string :=
  list_to_set (omap (fun x => assoc x label_map) (strip <$> split "," prefix)).

(** The body of the loop over the commits, on the triple
    [(warn_bad_msg, warn_signoff, labels)]. *)
Definition scan (acc : bool * bool * gset string) (msg : string) : bool * bool * gset string :=
  let '(warn_bad_msg, warn_signoff, labels) := acc in
  if Py.startswith "Revert" msg || Py.startswith "Merge" msg then acc
  else
    let '(warn_bad_msg, labels) :=
      match re_match msg with
      | Some p => (warn_bad_msg, labels ∪ lbls p)
      | None => (true, labels)
      end in
    (warn_bad_msg, warn_signoff || negb (Py.contains "Signed-off-by:" msg), labels).

End commit_message.

Section pull_requests.
Context (E : env).

(** [repo.get_pull(v)]: PyGithub asserts an [int]. *)
Definition get_pull_json (repo : Repository) (v : json) : M Z :=
  match v with
  | JNum n =>
      api_read E (fun gh cs => if gh_get_pull gh cs (full_name repo) n then Some n else None)
  | JBool _ => raise GithubException
  | _ => raise AssertionError
  end.

(** The messages of [pr.get_commits()]. *)
Definition get_commits (repo : Repository) (pr : Z) : M (list string) :=
  api_read E (fun gh cs => gh_get_commits gh cs (full_name repo) pr).

Definition pull_request_opened (j : json) : M Response :=
  reponame ← getitem2 j "repository" "full_name";
  repo ← get_repo_json E reponame;
  num ← getitem j "number";
  pr ← get_pull_json repo num;
  commits ← get_commits repo pr;
  let '(warn_bad_msg, warn_signoff, labels) :=
    foldl commit_message.scan (false, false, ∅) commits in
  (if warn_bad_msg || warn_signoff then
     let comment :=
       pr_greeting_msg +:+ (if warn_bad_msg then pr_warn_commit_msg else "")
       +:+ (if warn_signoff then pr_warn_signoff_msg else "") +:+ pr_guidelines_ref_msg in
     api_call E (CreateReview (full_name repo) pr comment "REQUEST_CHANGES")
   else mret tt);;
  (if bool_decide (labels = ∅) then mret tt
   else api_call E (SetLabels (full_name repo) pr labels));;
  mret OK_200.

End pull_requests.

(** ** The webhook entry point *)

(** A request as the views read it: its method, its headers under the names
    the code uses, its raw body and the value [get_json()] decodes from it
    ([None] when Flask raises [BadRequest]). *)
Record Request := mkRequest {
  method : string;
  headers : gmap string string;
  get_data : string;
  get_json : option json;
}.

Section webhook.
Context (E : env).

Definition event_handlers : list (string * list (string * (json -> M Response))) :=
  [ ("issues", [("labeled", issue_labeled E)]);
    ("issue_comment", [("created", issue_comment_created E)]);
    ("pull_request", [("opened", pull_request_opened E)]) ].

(** [str(v)] for the scalar values. *)
Definition str_scalar (v : json) : string :=
  match v with
  | JNull => "None"
  | JBool true => "True"
  | JBool false => "False"
  | JNum n => Py.str_int n
  | JStr s => s
  | _ => ""
  end.

(** The lines 308 to 316: [true] when the event is one of the bot's own. *)
Definition triggered_by_me (j : json) : M bool :=
  try_except
    (sender ← getitem2 j "sender" "login";
     reponame ← getitem2 j "repository" "full_name";
     get_repo_json E reponame;;
     if json_eq_str sender (my_user E)
     then log "[-] Ignoring event triggered by me";; mret true
     else mret false)
    (is_exn KeyError) (mret false).

Definition handle_webhook (request : Request) : M Response :=
  match headers request !! "X_GITHUB_EVENT" with
  | None =>
      log "No X-GitHub-Event header...";;
      mret (mkResponse "No X-GitHub-Event header" 400)
  | Some evtype =>
      log ("Handling webhook '" +:+ evtype +:+ "'");;
      match assoc evtype event_handlers with
      | None => log ("Unknown event '" +:+ evtype +:+ "'");; mret OK_200
      | Some event =>
          match get_json request with
          | None =>
              log "Could not parse payload as JSON";;
              mret (mkResponse "Bad JSON" 400)
          | Some j =>
              action ← try_except (v ← getitem j "action"; mret (Some v)) (is_exn KeyError)
                                  (log ("No action for event '" +:+ evtype +:+ "'");;
                                   mret None);
              match action with
              | None => mret OK_200
              | Some (JArr _) | Some (JObj _) => raise TypeError
              | Some action =>
                  match (match action with
                         | JStr a => assoc a event
                         | _ => None
                         end) with
                  | None =>
                      log ("No handler for action '" +:+ str_scalar action +:+ "'");;
                      mret OK_200
                  | Some handler =>
                      mine ← triggered_by_me j;
                      if mine : bool then mret OK_200
                      else
                        log ("Handling action '" +:+ str_scalar action +:+
                             "' on event '" +:+ evtype +:+ "'");;
                        handler j
                  end
              end
          end
      end
  end.

Definition gh_sig_valid (req : Request) : M bool :=
  let mydigest := "sha1=" +:+ hmac_sha1_hexdigest E (whsec E) (get_data req) in
  match headers req !! "X_HUB_SIGNATURE" with
  | None => raise KeyError
  | Some ghdigest =>
      let comp := String.eqb ghdigest mydigest in
      log ("Request: mine = " +:+ mydigest +:+ ", theirs = " +:+ ghdigest);;
      mret comp
  end.

Definition Unauthorized_401 : Response := mkResponse "Unauthorized" 401.

(** The view of the route [/payload]: [None] where the signature check
    passes, the response [401] where it fails or raises. *)
Definition parse_payload (request : Request) : M Response :=
  verdict ← try_except (valid ← gh_sig_valid request;
                        mret (if valid : bool then None else Some Unauthorized_401))
                       (fun _ => true) (mret (Some Unauthorized_401));
  match verdict with
  | Some r => mret r
  | None =>
      log ("Got " +:+ method request);;
      if String.eqb (method request) "POST" then handle_webhook request
      else mret OK_200
  end.

End webhook.

(** ** The decision of the comment handler *)

(** Whether a comment is a command of an administrator: the test of line 148. *)
Definition is_command (E : env) (body perm : string) : bool :=
  Py.contains (Py.lower (trigger E)) (Py.lower body) && String.eqb perm "admin".

(** The world in which [issue_comment_created] takes its decision: the one
    it was called in, with the two lines it has logged. *)
Definition decision_world (E : env) (w : world) (perm : string) : world :=
  mkWorld (jobs w) (calls w) ((logs w ++ ["Trigger: " +:+ trigger E]) ++ ["Perm: " +:+ perm]).

(** ** The cases of a delivery *)

(** The signature header is present and equal to the digest of the body. *)
Definition signature_verified (E : env) (req : Request) : bool :=
  match headers req !! "X_HUB_SIGNATURE" with
  | Some theirs =>
      String.eqb theirs ("sha1=" +:+ hmac_sha1_hexdigest E (whsec E) (get_data req))
  | None => false
  end.


(** ** A concrete deployment, used to run the code on examples *)

Module example.

(** A GitHub that answers every read and accepts the calls selected by
    [accepts]; [alice] is an administrator, everybody else reads. *)
Definition github_with (accepts : call -> bool) : github :=
  {| gh_get_repo := fun _ _ => true;
     gh_get_issue := fun _ _ num => Some (1000 + num)%Z;
     gh_get_collaborator_permission := fun _ _ login =>
       Some (if String.eqb login "alice" then "admin" else "read");
     gh_get_comment := fun _ _ _ _ => true;
     gh_get_pull := fun _ _ _ => true;
     gh_get_commits := fun _ _ _ => Some [];
     gh_accepts := fun _ c => accepts c |}.

(** A date parser that knows four expressions, one of them with a zone. *)
Definition parse_date (now : Z) (text : string) : option datetime :=
  let text := commit_message.strip text in
  if String.eqb text "tomorrow" then Some (Naive (now + 86400))
  else if String.eqb text "in 3 days" then Some (Naive (now + 3 * 86400))
  else if String.eqb text "yesterday" then Some (Naive (now - 86400))
  else if String.eqb text "tomorrow UTC" then Some (Aware (now + 86400))
  else None.

Definition deployment (gh : github) : env :=
  {| g := gh;
     my_user := "bot";
     whsec := "secret";
     now := 1700000000;
     dateparser_parse := parse_date;
     hmac_sha1_hexdigest := fun key data => "5d5d8f1c" |}.

Definition E : env := deployment (github_with (fun _ => true)).

(** A GitHub that refuses to close issues. *)
Definition E_edit_fails : env :=
  deployment (github_with (fun c => match c with IssueEdit _ _ _ => false | _ => true end)).

(** A GitHub on which the trigger label cannot be removed. *)
Definition E_unlabel_fails : env :=
  deployment (github_with (fun c => match c with RemoveFromLabels _ _ _ => false | _ => true end)).

(** A GitHub that does not know the repository. *)
Definition E_no_repo : env :=
  deployment {| gh_get_repo := fun _ _ => false;
                gh_get_issue := fun _ _ _ => None;
                gh_get_collaborator_permission := fun _ _ _ => None;
                gh_get_comment := fun _ _ _ _ => false;
                gh_get_pull := fun _ _ _ => false;
                gh_get_commits := fun _ _ _ => None;
                gh_accepts := fun _ _ => false |}.

(** Issue 42 of [acme/repo], whose internal id is another number. *)
Definition issue42 : Issue := mkIssue (mkRepository "acme/repo") 42 1042.

Definition idle : world := mkWorld ∅ [] [].

(** A world in which the close of issue 42 is pending. *)
Definition pending : world :=
  mkWorld {[ "acme/repo@@@42" := mkJob 1700604800 ("acme/repo", 42%Z) ]} [] [].

Definition labeled_payload (label : string) : json :=
  JObj [ ("action", JStr "labeled");
         ("repository", JObj [("full_name", JStr "acme/repo")]);
         ("issue", JObj [("number", JNum 42)]);
         ("label", JObj [("name", JStr label)]);
         ("sender", JObj [("login", JStr "alice")]) ].

Definition comment_payload (login body : string) : json :=
  JObj [ ("action", JStr "created");
         ("repository", JObj [("full_name", JStr "acme/repo")]);
         ("issue", JObj [("number", JNum 42)]);
         ("comment", JObj [("id", JNum 7); ("body", JStr body)]);
         ("sender", JObj [("login", JStr login)]) ].

(** A signed POST delivery. *)
Definition delivery (event : option string) (body : option json) : Request :=
  {| method := "POST";
     headers :=
       match event with
       | Some ev => {[ "X_HUB_SIGNATURE" := "sha1=5d5d8f1c"; "X_GITHUB_EVENT" := ev ]}
       | None => {[ "X_HUB_SIGNATURE" := "sha1=5d5d8f1c" ]}
       end;
     get_data := "";
     get_json := body |}.

End example.

(** ** The commits of a pull request *)

(** [sep.join(l)]. *)
Fixpoint str_join (sep : string) (l : list string) : string :=
  match l with
  | [] => ""
  | [x] => x
  | x :: r => x +:+ sep +:+ str_join sep r
  end.

(** A text of white space characters only. *)
Inductive blank : string -> Prop :=
| blank_nil : blank ""
| blank_cons w s : w ∈ commit_message.whitespace -> blank s -> blank (w +:+ s).

(** The commits the loop of [pull_request_opened] passes over (line 227). *)
Definition skipped (msg : string) : bool :=
  Py.startswith "Revert" msg || Py.startswith "Merge" msg.

(** A commit whose summary line has no [prefix:] (line 237). *)
Definition bad_summary (msg : string) : bool :=
  negb (skipped msg) &&
  match commit_message.re_match msg with
  | Some _ => false
  | None => true
  end.

(** A commit without sign-off (line 239). *)
Definition unsigned (msg : string) : bool :=
  negb (skipped msg) && negb (Py.contains "Signed-off-by:" msg).

(** The labels a commit contributes (lines 232 to 235). *)
Definition commit_labels (msg : string) : gset string :=
  if skipped msg then ∅
  else match commit_message.re_match msg with
       | Some p => commit_message.lbls p
       | None => ∅
       end.

(** The text of the review (lines 243 to 246). *)
Definition review_comment (warn_bad_msg warn_signoff : bool) : string :=
  pr_greeting_msg +:+ (if warn_bad_msg then pr_warn_commit_msg else "")
  +:+ (if warn_signoff then pr_warn_signoff_msg else "") +:+ pr_guidelines_ref_msg.

(** ** The handler a delivery selects *)

(** The handler [parse_payload] and [handle_webhook] look up for a request,
    if they get that far: the request is a verified POST, its event type
    and the action of its decoded payload have an entry in
    [event_handlers]. *)
Definition selected_handler (E : env) (req : Request) : option (json -> M Response) :=
  if signature_verified E req && String.eqb (method req) "POST" then
    match headers req !! "X_GITHUB_EVENT", get_json req with
    | Some ev, Some j =>
        match assoc ev (event_handlers E), subscript j "action" with
        | Some acts, inr (JStr a) => assoc a acts
        | _, _ => None
        end
    | _, _ => None
    end
  else None.

(** ** What a run may do to the job store *)

(** Every run of [m] takes the job store to one related to it by [R]. *)
Definition steps (R : relation (gmap string Job)) {A : Type} (m : M A) : Prop :=
  forall w, R (jobs w) (jobs (m w).1).

(** The job store [m'] holds, besides jobs of [m], only jobs that are due
    after the current time and stored under the id of the issue they
    close. *)
Definition grows_only (E : env) (m m' : gmap string Job) : Prop :=
  forall i job,
    m' !! i = Some job ->
    m !! i = Some job
    \/ (i = make_id (args job).1 (args job).2 /\ (now E < run_date job)%Z).

(** ** A GitHub that answers *)

(** GitHub finds the repository [rn], its issue [num] and the comments of
    the issue, and accepts every call, whatever was called before. *)
Definition cooperative (gh : github) (rn : string) (num iid : Z) : Prop :=
  (forall cs, gh_get_repo gh cs rn = true)
  /\ (forall cs, gh_get_issue gh cs rn num = Some iid)
  /\ (forall cs cid, gh_get_comment gh cs rn num cid = true)
  /\ (forall cs c, gh_accepts gh cs c = true).

(** * Properties *)

(** ** The string operations on examples *)

Example make_id_42 : make_id "acme/repo" 42 = "acme/repo@@@42".
Proof. reflexivity. Qed.

Example parse_id_42 : parse_id "acme/repo@@@42" = Some ("acme/repo", 42%Z).
Proof. reflexivity. Qed.

Example parse_id_no_separator : parse_id "acme/repo@@42" = None.
Proof. reflexivity. Qed.

Example partition_lowercase :
  Py.partition "autoclose" "@bot autoclose in 3 days" = ("@bot ", "autoclose", " in 3 days").
Proof. reflexivity. Qed.

Example partition_uppercase :
  Py.partition "autoclose" "@bot AUTOCLOSE in 3 days" = ("@bot AUTOCLOSE in 3 days", "", "").
Proof. reflexivity. Qed.

Example rpartition_last : Py.rpartition "@@@" "a@@@@1" = ("a@", "@@@", "1").
Proof. reflexivity. Qed.

Example lower_mixed : Py.lower "@Bot AUTOclose" = "@bot autoclose".
Proof. reflexivity. Qed.

Example str_int_signs : Py.str_int (-120) = "-120" /\ Py.str_int 0 = "0".
Proof. split; reflexivity. Qed.

Example re_match_prefix :
  commit_message.re_match "bgpd, lib: fix crash" = Some "bgpd, lib"
  /\ commit_message.re_match "fix crash" = None
  /\ commit_message.re_match ": fix" = None.
Proof. repeat split; reflexivity. Qed.

Example lbls_prefix :
  commit_message.lbls "bgpd, lib ,nope" = ({["bgp"; "libfrr"]} : gset string).
Proof. vm_compute. reflexivity. Qed.

(** ** Decimal numerals *)

Section numerals.

Lemma string_of_uint_free_of_at d :
  Py.free_of "@" (NilEmpty.string_of_uint d) = true.
Proof. induction d; simpl; auto. Qed.

Lemma str_int_free_of_at n : Py.free_of "@" (Py.str_int n) = true.
Proof.
  unfold Py.str_int. destruct (Z.to_int n); simpl;
    apply string_of_uint_free_of_at.
Qed.

Lemma int_of_str_str_int n : Py.int_of_str (Py.str_int n) = Some n.
Proof.
  unfold Py.int_of_str, Py.str_int.
  rewrite NilEmpty.isi. simpl. f_equal. apply DecimalZ.of_to.
Qed.

Lemma str_int_inj n1 n2 : Py.str_int n1 = Py.str_int n2 -> n1 = n2.
Proof.
  intros H. apply (f_equal Py.int_of_str) in H.
  rewrite !int_of_str_str_int in H. congruence.
Qed.

End numerals.

(** ** Splitting an id at its last separator *)

Section separator.

Local Arguments Ascii.eqb : simpl never.

Lemma free_of_cons c a t :
  Py.free_of c (String a t) = true -> a <> c /\ Py.free_of c t = true.
Proof.
  simpl. intros [Ha Ht]%andb_prop. split; [|done].
  apply Ascii.eqb_neq. by destruct (Ascii.eqb a c).
Qed.

Lemma startswith_other c p a t :
  a <> c -> Py.startswith (String c p) (String a t) = false.
Proof. intros Hne. simpl. apply not_eq_sym, Ascii.eqb_neq in Hne. by rewrite Hne. Qed.

Lemma rpartition_free s :
  Py.free_of "@" s = true -> Py.rpartition "@@@" s = ("", "", s).
Proof.
  induction s as [|a t IH]; [done|].
  intros [Ha Ht]%free_of_cons.
  cbn [Py.rpartition]. rewrite (IH Ht), startswith_other by done. reflexivity.
Qed.

Lemma rpartition_sep d :
  Py.free_of "@" d = true -> Py.rpartition "@@@" ("@@@" +:+ d) = ("", "@@@", d).
Proof.
  intros Hd.
  change ("@@@" +:+ d) with (String "@" (String "@" (String "@" d))).
  cbn [Py.rpartition]. rewrite (rpartition_free d Hd).
  destruct d as [|a t]; [reflexivity|].
  apply free_of_cons in Hd as [Ha _].
  change (Py.startswith "@@@" (String "@" (String "@" (String a t))))
    with (Py.startswith "@" (String a t)).
  change (Py.startswith "@@@" (String "@" (String a t)))
    with (Py.startswith "@@" (String a t)).
  rewrite !startswith_other by done. reflexivity.
Qed.

Lemma rpartition_make r d :
  Py.free_of "@" d = true ->
  Py.rpartition "@@@" (r +:+ "@@@" +:+ d) = (r, "@@@", d).
Proof.
  intros Hd. induction r as [|c r IH].
  - apply (rpartition_sep d Hd).
  - change (String c r +:+ "@@@" +:+ d) with (String c (r +:+ "@@@" +:+ d)).
    cbn [Py.rpartition]. rewrite IH. reflexivity.
Qed.

End separator.

Lemma parse_id_make_id r n : parse_id (make_id r n) = Some (r, n).
Proof.
  unfold parse_id, make_id.
  rewrite rpartition_make by apply str_int_free_of_at.
  by rewrite int_of_str_str_int.
Qed.

Lemma make_id_inj r1 n1 r2 n2 :
  make_id r1 n1 = make_id r2 n2 -> r1 = r2 /\ n1 = n2.
Proof.
  intros H. apply (f_equal parse_id) in H.
  rewrite !parse_id_make_id in H. by inversion H.
Qed.

(** C3. The job id determines the repository name and the issue number:
    [parse_id] reads back from [make_id r n] exactly the pair [(r, n)], and
    two pairs with the same id are the same pair. *)
Theorem make_id_parse_id_inverse :
  (forall r n, parse_id (make_id r n) = Some (r, n))
  /\ Inj2 (=) (=) (=) make_id.
Proof.
  split; [exact parse_id_make_id|].
  intros r1 n1 r2 n2 H. by apply make_id_inj.
Qed.


(** ** The scheduler functions *)

Section scheduler_properties.

Lemma schedule_close_issue_run issue when w :
  schedule_close_issue issue when w =
  (mkWorld (<[make_id (full_name (repository issue)) (number issue) :=
               mkJob when (full_name (repository issue), number issue)]> (jobs w))
           (calls w)
           (logs w ++ ["[-] Scheduling issue #" +:+ Py.str_int (number issue) +:+
                       " for autoclose (id: " +:+
                       make_id (full_name (repository issue)) (number issue) +:+ ")"]),
   inr tt).
Proof. reflexivity. Qed.

Lemma cancel_close_issue_run issue w :
  cancel_close_issue issue w =
  scheduler.remove_job (make_id (full_name (repository issue)) (id issue))
    (mkWorld (jobs w) (calls w)
       (logs w ++ ["[-] Descheduling issue #" +:+ Py.str_int (id issue) +:+ " for closing"])).
Proof. reflexivity. Qed.

Lemma remove_job_absent i w :
  jobs w !! i = None -> scheduler.remove_job i w = (w, inl JobLookupError).
Proof. intros H. unfold scheduler.remove_job. by rewrite H. Qed.

Lemma remove_job_present i w job :
  jobs w !! i = Some job ->
  scheduler.remove_job i w = (mkWorld (delete i (jobs w)) (calls w) (logs w), inr tt).
Proof. intros H. unfold scheduler.remove_job. by rewrite H. Qed.

Lemma filter_none {A : Type} (P : A -> Prop) `{forall x, Decision (P x)} (l : list A) :
  (forall x, x ∈ l -> ~ P x) -> filter P l = [].
Proof.
  induction l as [|x l IH]; intros Hl; [done|].
  rewrite filter_cons_False by (apply Hl; left).
  apply IH. intros y Hy. apply Hl. by right.
Qed.

(** The pending jobs of one id, in a store that holds a job for it. *)
Lemma pending_jobs_of_id (m : gmap string Job) i job :
  m !! i = Some job ->
  filter (fun kv => kv.1 = i) (map_to_list m) = [(i, job)].
Proof.
  intros Hi. rewrite <- (insert_delete_id m i job Hi).
  apply Permutation_singleton_r.
  rewrite map_to_list_insert by apply lookup_delete_eq.
  rewrite filter_cons_True by done.
  apply Permutation_skip.
  rewrite filter_none; [done|].
  intros [k v] Hkv%elem_of_map_to_list Hk. simpl in Hk. subst k.
  by rewrite lookup_delete_eq in Hkv.
Qed.

End scheduler_properties.

(** C1. Scheduling the close of one issue twice leaves, under the id of the
    issue, exactly one pending job, and its run date is the one of the
    second call; the jobs of the other ids are untouched. *)
Theorem schedule_twice_latest_wins issue t1 t2 w :
  let i := make_id (full_name (repository issue)) (number issue) in
  let job2 := mkJob t2 (full_name (repository issue), number issue) in
  let '(w1, r1) := schedule_close_issue issue t1 w in
  let '(w2, r2) := schedule_close_issue issue t2 w1 in
  r1 = inr tt /\ r2 = inr tt
  /\ jobs w2 !! i = Some job2
  /\ filter (fun kv => kv.1 = i) (map_to_list (jobs w2)) = [(i, job2)]
  /\ jobs w2 = <[i := job2]> (jobs w).
Proof.
  intros i job2. rewrite !schedule_close_issue_run. cbn [jobs].
  fold i job2. repeat split.
  - apply lookup_insert_eq.
  - apply pending_jobs_of_id, lookup_insert_eq.
  - apply insert_insert_eq.
Qed.

(** C2. [cancel_close_issue] names the job by the issue's internal [id],
    [schedule_close_issue] by its [number]: for an issue whose two numbers
    differ the two job ids differ, and a cancel that follows a schedule
    looks up another id and leaves the scheduled job in the store. *)
Theorem cancel_id_differs_from_schedule_id issue when w :
  id issue <> number issue ->
  let rn := full_name (repository issue) in
  let scheduled := make_id rn (number issue) in
  let w1 := (schedule_close_issue issue when w).1 in
  make_id rn (id issue) <> scheduled
  /\ jobs w1 !! scheduled = Some (mkJob when (rn, number issue))
  /\ (cancel_close_issue issue w1).1 =
     (scheduler.remove_job (make_id rn (id issue))
        (mkWorld (jobs w1) (calls w1)
           (logs w1 ++ ["[-] Descheduling issue #" +:+ Py.str_int (id issue) +:+
                        " for closing"]))).1
  /\ jobs (cancel_close_issue issue w1).1 !! scheduled = Some (mkJob when (rn, number issue)).
Proof.
  intros Hne rn scheduled w1.
  assert (Hid : make_id rn (id issue) <> scheduled).
  { intros Heq. apply Hne.
    by destruct (make_id_inj _ _ _ _ Heq). }
  assert (Hw1 : jobs w1 !! scheduled = Some (mkJob when (rn, number issue))).
  { subst w1. rewrite schedule_close_issue_run. apply lookup_insert_eq. }
  split; [done|]. split; [done|]. split; [rewrite cancel_close_issue_run; reflexivity|].
  rewrite cancel_close_issue_run. unfold scheduler.remove_job. cbn [jobs]. fold rn.
  destruct (jobs w1 !! make_id rn (id issue)); cbn [fst jobs]; [|done].
  by rewrite lookup_delete_ne.
Qed.

Lemma cancel_id_differs_from_schedule_id_witness :
  id example.issue42 <> number example.issue42
  /\ jobs (cancel_close_issue example.issue42
             (schedule_close_issue example.issue42 1700604800 example.idle).1).1
       !! "acme/repo@@@42"
     = Some (mkJob 1700604800 ("acme/repo", 42%Z)).
Proof.
  assert (H : id example.issue42 <> number example.issue42) by (cbn; lia).
  split; [exact H|].
  exact (proj2 (proj2 (proj2
    (cancel_id_differs_from_schedule_id example.issue42 1700604800 example.idle H)))).
Defined.

Section cancel.

(** Without a job under the id it computes, [cancel_close_issue] raises the
    [JobLookupError] of [remove_job] and removes nothing. *)
Lemma cancel_close_issue_no_job issue w :
  jobs w !! make_id (full_name (repository issue)) (id issue) = None ->
  (cancel_close_issue issue w).2 = inl JobLookupError
  /\ jobs (cancel_close_issue issue w).1 = jobs w.
Proof.
  intros H. rewrite cancel_close_issue_run, remove_job_absent by done. done.
Qed.

End cancel.

(** [cancel_close_issue], which no handler calls, on the idle scheduler:
    [remove_job] raises [JobLookupError] and the exception leaves the
    function. *)
Example cancel_close_issue_idle_raises :
  jobs example.idle !! make_id "acme/repo" 1042 = None
  /\ (cancel_close_issue example.issue42 example.idle).2 = inl JobLookupError.
Proof.
  split; [reflexivity|].
  apply (cancel_close_issue_no_job example.issue42 example.idle). reflexivity.
Qed.

(** ** Running the monad *)

Section running.

Lemma bind_run {A B : Type} (m : M A) (f : A -> M B) w :
  (m ≫= f) w =
  match m w with
  | (w', inl e) => (w', inl e)
  | (w', inr a) => f a w'
  end.
Proof. reflexivity. Qed.

Lemma bind_ok {A B : Type} (m : M A) (f : A -> M B) w w' a :
  m w = (w', inr a) -> (m ≫= f) w = f a w'.
Proof. intros H. by rewrite bind_run, H. Qed.

Lemma bind_raise {A B : Type} (m : M A) (f : A -> M B) w w' e :
  m w = (w', inl e) -> (m ≫= f) w = (w', inl e).
Proof. intros H. by rewrite bind_run, H. Qed.

Lemma get_repo_run E rn w :
  get_repo E rn w =
  (w, if gh_get_repo (g E) (calls w) rn then inr (mkRepository rn) else inl GithubException).
Proof. unfold get_repo, api_read. by destruct (gh_get_repo _ _ _). Qed.

Lemma get_issue_run E repo num w :
  get_issue E repo num w =
  (w, match gh_get_issue (g E) (calls w) (full_name repo) num with
      | Some i => inr (mkIssue repo num i)
      | None => inl GithubException
      end).
Proof. unfold get_issue, api_read. by destruct (gh_get_issue _ _ _ _). Qed.

Lemma api_call_run E c w :
  api_call E c w =
  if gh_accepts (g E) (calls w) c
  then (mkWorld (jobs w) (calls w ++ [c]) (logs w), inr tt)
  else (w, inl GithubException).
Proof. reflexivity. Qed.

End running.

(** C7, as the code has it.  [close_issue] writes one log line and leaves
    the job store alone.  It returns exactly when the repository and the
    issue are found and GitHub accepts the close; whether the trigger label
    can then be removed does not matter.  In every other case the
    [GithubException] of the failed call leaves [close_issue], and no
    further line is logged. *)
Theorem close_issue_outcome E rn num w :
  let closed := IssueEdit rn num "closed" in
  let unlabel := RemoveFromLabels rn num triggerlabel in
  let reached :=
    gh_get_repo (g E) (calls w) rn
    && bool_decide (is_Some (gh_get_issue (g E) (calls w) rn num))
    && gh_accepts (g E) (calls w) closed in
  let '(w', r) := close_issue E rn num w in
  jobs w' = jobs w
  /\ logs w' = (logs w ++ ["Closing issue #" +:+ Py.str_int num])%list
  /\ r = (if reached then inr tt else inl GithubException)
  /\ calls w' =
     if reached
     then (calls w ++ closed ::
            (if gh_accepts (g E) (calls w ++ [closed]) unlabel then [unlabel] else []))%list
     else calls w.
Proof.
  intros closed unlabel reached. subst reached.
  unfold close_issue. rewrite bind_run. cbn [log].
  rewrite bind_run, get_repo_run. cbn [calls].
  destruct (gh_get_repo _ _ _); [|done].
  rewrite bind_run, get_issue_run. cbn [calls full_name].
  destruct (gh_get_issue _ _ _ _) as [i|]; [|done].
  rewrite bool_decide_eq_true_2 by eauto.
  rewrite bind_run. unfold issue_edit. rewrite api_call_run.
  cbn [calls full_name repository number jobs logs]. fold closed.
  destruct (gh_accepts (g E) (calls w) closed); [|done].
  unfold try_except, remove_from_labels. rewrite api_call_run.
  cbn [calls full_name repository number jobs logs]. fold unlabel.
  destruct (gh_accepts _ _ unlabel); cbn; repeat split; by rewrite <- ?app_assoc.
Qed.

(** C7, as stated, fails: when GitHub refuses to close the issue, the
    exception is not caught inside [close_issue] and no log line records
    it. *)
Lemma close_issue_edit_failure_escapes :
  close_issue example.E_edit_fails "acme/repo" 42 example.idle
  = (mkWorld ∅ [] ["Closing issue #42"], inl GithubException).
Proof. reflexivity. Qed.

Example close_issue_unlabel_failure_swallowed :
  close_issue example.E_unlabel_fails "acme/repo" 42 example.idle
  = (mkWorld ∅ [IssueEdit "acme/repo" 42 "closed"] ["Closing issue #42"], inr tt).
Proof. reflexivity. Qed.

(** ** The label handler *)

Section reads.

Lemma getitem_run j k w : getitem j k w = (w, subscript j k).
Proof. reflexivity. Qed.

Lemma getitem2_run j k1 k2 w : getitem2 j k1 k2 w = (w, subscript2 j k1 k2).
Proof. reflexivity. Qed.

(** The two lookups every issue handler starts with. *)
Lemma get_repo_json_found E rn w :
  gh_get_repo (g E) (calls w) rn = true ->
  get_repo_json E (JStr rn) w = (w, inr (mkRepository rn)).
Proof. intros H. cbn [get_repo_json]. by rewrite get_repo_run, H. Qed.

Lemma get_issue_json_found E rn num iid w :
  gh_get_issue (g E) (calls w) rn num = Some iid ->
  get_issue_json E (mkRepository rn) (JNum num) w = (w, inr (mkIssue (mkRepository rn) num iid)).
Proof. intros H. cbn [get_issue_json]. rewrite get_issue_run. cbn [full_name]. by rewrite H. Qed.

End reads.

(** C8. On a label-applied event whose repository and issue GitHub finds:
    when the label is the trigger label, the handler stores the close of
    the issue under the issue's id, due one week after the current time,
    and posts the explanatory comment; for any other label it stores and
    posts nothing.  The answer is [200] in both cases. *)
Theorem issue_labeled_schedules_in_one_week E j w rn num iid lbl :
  subscript2 j "repository" "full_name" = inr (JStr rn) ->
  subscript2 j "issue" "number" = inr (JNum num) ->
  subscript2 j "label" "name" = inr lbl ->
  gh_get_repo (g E) (calls w) rn = true ->
  gh_get_issue (g E) (calls w) rn num = Some iid ->
  gh_accepts (g E) (calls w) (CreateComment rn num autoclosemsg) = true ->
  let '(w', r) := issue_labeled E j w in
  r = inr OK_200
  /\ (lbl = JStr triggerlabel ->
      jobs w' = <[make_id rn num := mkJob (now E + one_week) (rn, num)]> (jobs w)
      /\ calls w' = (calls w ++ [CreateComment rn num autoclosemsg])%list)
  /\ (lbl <> JStr triggerlabel -> jobs w' = jobs w /\ calls w' = calls w).
Proof.
  intros Hrn Hnum Hlbl Hrepo Hissue Hcomment.
  unfold issue_labeled.
  rewrite (bind_ok _ _ _ _ _ (eq_trans (getitem2_run _ _ _ _) (f_equal _ Hrn))).
  rewrite (bind_ok _ _ _ _ _ (eq_trans (getitem2_run _ _ _ _) (f_equal _ Hnum))).
  rewrite (bind_ok _ _ _ _ _ (get_repo_json_found _ _ _ Hrepo)).
  rewrite (bind_ok _ _ _ _ _ (get_issue_json_found _ _ _ _ _ Hissue)).
  rewrite (bind_ok _ _ _ _ _ (eq_trans (getitem2_run _ _ _ _) (f_equal _ Hlbl))).
  destruct (json_eq_str lbl triggerlabel) eqn:Heq.
  - assert (lbl = JStr triggerlabel) as ->.
    { destruct lbl; try discriminate. f_equal. by apply String.eqb_eq. }
    rewrite bind_run, bind_run, schedule_close_issue_run.
    unfold create_comment. rewrite api_call_run.
    cbn [calls jobs logs full_name repository number]. rewrite Hcomment.
    cbn. repeat split; done.
  - cbn. split; [done|]. split; [|done].
    intros ->. cbn in Heq. discriminate.
Qed.

Lemma issue_labeled_schedules_in_one_week_witness :
  gh_get_issue (g example.E) [] "acme/repo" 42 = Some 1042%Z
  /\ jobs (issue_labeled example.E (example.labeled_payload "autoclose") example.idle).1
       !! "acme/repo@@@42"
     = Some (mkJob (1700000000 + 604800) ("acme/repo", 42%Z))
  /\ calls (issue_labeled example.E (example.labeled_payload "autoclose") example.idle).1
     = [CreateComment "acme/repo" 42 autoclosemsg]
  /\ jobs (issue_labeled example.E (example.labeled_payload "bug") example.idle).1 = ∅.
Proof.
  split; [reflexivity|].
  pose proof (issue_labeled_schedules_in_one_week example.E
                (example.labeled_payload "autoclose") example.idle
                "acme/repo" 42 1042 (JStr "autoclose")
                eq_refl eq_refl eq_refl eq_refl eq_refl eq_refl) as Hyes.
  pose proof (issue_labeled_schedules_in_one_week example.E
                (example.labeled_payload "bug") example.idle
                "acme/repo" 42 1042 (JStr "bug")
                eq_refl eq_refl eq_refl eq_refl eq_refl eq_refl) as Hno.
  destruct (issue_labeled example.E (example.labeled_payload "autoclose") example.idle)
    as [w1 r1].
  destruct (issue_labeled example.E (example.labeled_payload "bug") example.idle)
    as [w2 r2].
  destruct Hyes as (_ & Hyes & _). destruct (Hyes eq_refl) as [Hjobs Hcalls].
  destruct Hno as (_ & _ & Hno). destruct Hno as [Hjobs2 _]; [discriminate|].
  cbn [fst]. rewrite Hjobs, Hcalls, Hjobs2. split; [|split; reflexivity].
  apply lookup_insert_eq.
Defined.

(** ** The comment handler *)

Section comment_handler.
Context (E : env) (j : json) (w : world).
Context (rn : string) (num iid : Z) (body sender perm : string).

Hypothesis payload_repository : subscript2 j "repository" "full_name" = inr (JStr rn).
Hypothesis payload_issue : subscript2 j "issue" "number" = inr (JNum num).
Hypothesis payload_body : subscript2 j "comment" "body" = inr (JStr body).
Hypothesis payload_sender : subscript2 j "sender" "login" = inr (JStr sender).
Hypothesis repo_found : gh_get_repo (g E) (calls w) rn = true.
Hypothesis issue_found : gh_get_issue (g E) (calls w) rn num = Some iid.
Hypothesis permission :
  gh_get_collaborator_permission (g E) (calls w) rn sender = Some perm.

Local Abbreviation decision_world := (decision_world E w perm).
Local Abbreviation is_command := (is_command E body perm).

(** Up to its decision the handler only reads and logs. *)
Lemma issue_comment_created_run :
  issue_comment_created E j w =
  (let issue := mkIssue (mkRepository rn) num iid in
   let issueid := make_id rn num in
   (if is_command then
      match dateparser_parse E (now E) (Py.partition "autoclose" body).2 with
      | Some (Naive closedate) =>
          if (now E <? closedate)%Z then
            schedule_close_issue issue closedate;;
            add_to_labels E issue "autoclose";;
            cid ← getitem2 j "comment" "id";
            comment ← get_comment_json E issue cid;
            create_reaction E issue comment "+1"
          else mret tt
      | Some (Aware _) => raise TypeError
      | None => mret tt
      end
    else
      job ← scheduler.get_job issueid;
      match job with
      | Some _ =>
          scheduler.remove_job issueid;;
          remove_from_labels E issue triggerlabel;;
          create_comment E issue noautoclosemsg
      | None => mret tt
      end);;
   mret OK_200) decision_world.
Proof.
  unfold issue_comment_created.
  rewrite (bind_ok _ _ _ _ _ (eq_trans (getitem2_run _ _ _ _) (f_equal _ payload_repository))).
  rewrite (bind_ok _ _ _ _ _ (eq_trans (getitem2_run _ _ _ _) (f_equal _ payload_issue))).
  rewrite (bind_ok _ _ _ _ _ (get_repo_json_found _ _ _ repo_found)).
  rewrite (bind_ok _ _ _ _ _ (get_issue_json_found _ _ _ _ _ issue_found)).
  rewrite (bind_ok _ _ _ _ _ (eq_trans (getitem2_run _ _ _ _) (f_equal _ payload_body))).
  rewrite (bind_ok _ _ _ _ _ (eq_trans (getitem2_run _ _ _ _) (f_equal _ payload_sender))).
  assert (Hperm : get_collaborator_permission_json E (mkRepository rn) (JStr sender) w
                  = (w, inr perm)).
  { cbn [get_collaborator_permission_json]. unfold get_collaborator_permission, api_read.
    cbn [full_name]. by rewrite permission. }
  rewrite (bind_ok _ _ _ _ _ Hperm).
  reflexivity.
Qed.

(** An administrator's command whose date text gives no naive time after
    the current one changes neither the job store nor anything on GitHub;
    it is answered, unless the date is aware of a zone: the comparison of
    line 150 then raises. *)
Lemma command_without_future_date :
  is_command = true ->
  (forall closedate,
     dateparser_parse E (now E) (Py.partition "autoclose" body).2 = Some (Naive closedate) ->
     (closedate <= now E)%Z) ->
  issue_comment_created E j w =
  (decision_world,
   match dateparser_parse E (now E) (Py.partition "autoclose" body).2 with
   | Some (Aware _) => inl TypeError
   | _ => inr OK_200
   end).
Proof.
  intros Hcmd Hdate. rewrite issue_comment_created_run. cbv zeta. rewrite Hcmd.
  destruct (dateparser_parse _ _ _) as [[closedate|t]|] eqn:Hparse; [|reflexivity..].
  specialize (Hdate _ eq_refl).
  destruct (Z.ltb_spec (now E) closedate); [lia|reflexivity].
Qed.

(** A comment that is not an administrator's command removes the job
    pending for its issue, whatever GitHub then answers. *)
Lemma activity_removes_job :
  is_command = false ->
  jobs (issue_comment_created E j w).1 = delete (make_id rn num) (jobs w).
Proof.
  intros Hcmd. rewrite issue_comment_created_run. cbv zeta. rewrite Hcmd.
  rewrite bind_run, bind_run. unfold scheduler.get_job. cbn [jobs decision_world].
  destruct (jobs w !! make_id rn num) as [job|] eqn:Hjob.
  - rewrite bind_run. erewrite remove_job_present by exact Hjob.
    cbn [jobs]. rewrite bind_run. unfold remove_from_labels, create_comment.
    rewrite api_call_run. destruct (gh_accepts _ _ _); [|done].
    rewrite api_call_run. by destruct (gh_accepts _ _ _).
  - cbn. symmetry. by apply delete_id.
Qed.


End comment_handler.

Section date_text.

Lemma partition_absent sep s :
  Py.contains sep s = false -> Py.partition sep s = (s, "", "").
Proof.
  induction s as [|c t IH].
  - cbn [Py.contains Py.partition]. intros [-> _]%orb_false_elim. reflexivity.
  - cbn [Py.contains Py.partition]. intros [-> Ht]%orb_false_elim.
    by rewrite (IH Ht).
Qed.

End date_text.




(** C6, as stated, fails: the comment of a user without admin permission
    removes the close that was pending for the issue. *)
Lemma non_admin_comment_removes_job :
  let j := example.comment_payload "bob" "@bot autoclose tomorrow" in
  gh_get_collaborator_permission (g example.E) [] "acme/repo" "bob" = Some "read"
  /\ jobs example.pending !! "acme/repo@@@42" = Some (mkJob 1700604800 ("acme/repo", 42%Z))
  /\ jobs (issue_comment_created example.E j example.pending).1 !! "acme/repo@@@42" = None
  /\ calls (issue_comment_created example.E j example.pending).1
     = [RemoveFromLabels "acme/repo" 42 "autoclose";
        CreateComment "acme/repo" 42 noautoclosemsg].
Proof. repeat split; reflexivity. Qed.

(** C6, as the code has it.  The comment of a sender without admin
    permission schedules nothing: the job store after the handler is the
    one before it without the job of the commented issue, so that no job
    is added, none gets another run date, and the close pending for the
    issue, if any, is cancelled. *)
Theorem non_admin_comment_schedules_nothing E j w rn num iid body sender perm :
  subscript2 j "repository" "full_name" = inr (JStr rn) ->
  subscript2 j "issue" "number" = inr (JNum num) ->
  subscript2 j "comment" "body" = inr (JStr body) ->
  subscript2 j "sender" "login" = inr (JStr sender) ->
  gh_get_repo (g E) (calls w) rn = true ->
  gh_get_issue (g E) (calls w) rn num = Some iid ->
  gh_get_collaborator_permission (g E) (calls w) rn sender = Some perm ->
  perm <> "admin" ->
  jobs (issue_comment_created E j w).1 = delete (make_id rn num) (jobs w).
Proof.
  intros Hrn Hnum Hbody Hsender Hrepo Hissue Hperm Hadmin.
  apply (activity_removes_job E j w rn num iid body sender perm); try done.
  unfold is_command. apply String.eqb_neq in Hadmin. rewrite Hadmin.
  apply andb_false_r.
Qed.

Lemma non_admin_comment_schedules_nothing_witness :
  "read" <> "admin"
  /\ jobs (issue_comment_created example.E
             (example.comment_payload "bob" "@bot autoclose tomorrow") example.idle).1
     = delete (make_id "acme/repo" 42) ∅.
Proof.
  assert (H : "read" <> "admin") by discriminate.
  split; [exact H|].
  exact (non_admin_comment_schedules_nothing example.E
           (example.comment_payload "bob" "@bot autoclose tomorrow") example.idle
           "acme/repo" 42 1042 "@bot autoclose tomorrow" "bob" "read"
           eq_refl eq_refl eq_refl eq_refl eq_refl eq_refl eq_refl H).
Defined.

(** C10. The trigger is matched without regard to case, the date text is
    what follows the lower-case word [autoclose]: an administrator's
    comment that carries the trigger but nowhere the lower-case word enters
    the command branch with an empty date text, and, the date parser
    finding no date in the empty text, neither schedules nor cancels
    anything. *)
Theorem uppercase_command_is_inert E j w rn num iid body sender :
  subscript2 j "repository" "full_name" = inr (JStr rn) ->
  subscript2 j "issue" "number" = inr (JNum num) ->
  subscript2 j "comment" "body" = inr (JStr body) ->
  subscript2 j "sender" "login" = inr (JStr sender) ->
  gh_get_repo (g E) (calls w) rn = true ->
  gh_get_issue (g E) (calls w) rn num = Some iid ->
  gh_get_collaborator_permission (g E) (calls w) rn sender = Some "admin" ->
  Py.contains (Py.lower (trigger E)) (Py.lower body) = true ->
  Py.contains "autoclose" body = false ->
  dateparser_parse E (now E) "" = None ->
  is_command E body "admin" = true
  /\ (Py.partition "autoclose" body).2 = ""
  /\ (let '(w', r) := issue_comment_created E j w in
      r = inr OK_200 /\ jobs w' = jobs w /\ calls w' = calls w).
Proof.
  intros Hrn Hnum Hbody Hsender Hrepo Hissue Hperm Htrigger Hword Hparse.
  assert (Hcmd : is_command E body "admin" = true).
  { unfold is_command. by rewrite Htrigger. }
  assert (Htext : (Py.partition "autoclose" body).2 = "").
  { by rewrite (partition_absent _ _ Hword). }
  split; [done|]. split; [done|].
  rewrite (command_without_future_date E j w rn num iid body sender "admin"); try done.
  - by rewrite Htext, Hparse.
  - intros closedate. rewrite Htext, Hparse. discriminate.
Qed.

Lemma uppercase_command_is_inert_witness :
  Py.contains "autoclose" "@bot AUTOCLOSE tomorrow" = false
  /\ jobs (issue_comment_created example.E
             (example.comment_payload "alice" "@bot AUTOCLOSE tomorrow") example.pending).1
     = jobs example.pending
  /\ calls (issue_comment_created example.E
              (example.comment_payload "alice" "@bot AUTOCLOSE tomorrow") example.pending).1
     = [].
Proof.
  split; [reflexivity|].
  pose proof (uppercase_command_is_inert example.E
                (example.comment_payload "alice" "@bot AUTOCLOSE tomorrow") example.pending
                "acme/repo" 42 1042 "@bot AUTOCLOSE tomorrow" "alice"
                eq_refl eq_refl eq_refl eq_refl eq_refl eq_refl eq_refl
                eq_refl eq_refl eq_refl) as (_ & _ & H).
  destruct (issue_comment_created example.E _ example.pending) as [w' r].
  destruct H as (_ & Hjobs & Hcalls). by split.
Defined.

Example lowercase_command_reschedules :
  issue_comment_created example.E
    (example.comment_payload "alice" "@bot autoclose in 3 days") example.pending
  = (mkWorld {[ "acme/repo@@@42" := mkJob (1700000000 + 3 * 86400) ("acme/repo", 42%Z) ]}
       [AddToLabels "acme/repo" 42 "autoclose"; CreateReaction "acme/repo" 42 7 "+1"]
       ["Trigger: @bot autoclose"; "Perm: admin";
        "[-] Scheduling issue #42 for autoclose (id: acme/repo@@@42)"],
     inr OK_200).
Proof. reflexivity. Qed.

(** ** The webhook entry point *)

Section entry_point.
Context (E : env).








Lemma gh_sig_valid_run req w :
  gh_sig_valid E req w =
  match headers req !! "X_HUB_SIGNATURE" with
  | None => (w, inl KeyError)
  | Some theirs =>
      (mkWorld (jobs w) (calls w)
         (logs w ++ ["Request: mine = " +:+ "sha1=" +:+
                     hmac_sha1_hexdigest E (whsec E) (get_data req) +:+
                     ", theirs = " +:+ theirs]),
       inr (signature_verified E req))
  end.
Proof.
  unfold gh_sig_valid, signature_verified.
  by destruct (headers req !! "X_HUB_SIGNATURE").
Qed.









End entry_point.




Example unsigned_delivery_is_refused :
  (parse_payload example.E
     (mkRequest "POST" {[ "X_GITHUB_EVENT" := "issues" ]} "" None) example.idle).2
  = inr Unauthorized_401.
Proof. reflexivity. Qed.

Example labeled_delivery_schedules :
  parse_payload example.E
    (example.delivery (Some "issues") (Some (example.labeled_payload "autoclose")))
    example.idle
  = (mkWorld {[ "acme/repo@@@42" := mkJob 1700604800 ("acme/repo", 42%Z) ]}
       [CreateComment "acme/repo" 42 autoclosemsg]
       ["Request: mine = sha1=5d5d8f1c, theirs = sha1=5d5d8f1c"; "Got POST";
        "Handling webhook 'issues'"; "Handling action 'labeled' on event 'issues'";
        "[-] Scheduling issue #42 for autoclose (id: acme/repo@@@42)"],
     inr OK_200).
Proof. reflexivity. Qed.

(** ** The guarded cancel of the comment handler *)

Section guarded_cancel.


End guarded_cancel.



Example comment_on_idle_scheduler :
  issue_comment_created example.E
    (example.comment_payload "bob" "this still happens") example.idle
  = (mkWorld ∅ [] ["Trigger: @bot autoclose"; "Perm: read"], inr OK_200).
Proof. reflexivity. Qed.

Example cancel_close_issue_misses_pending_job :
  cancel_close_issue example.issue42 example.pending
  = (mkWorld (jobs example.pending) [] ["[-] Descheduling issue #1042 for closing"],
     inl JobLookupError).
Proof. reflexivity. Qed.

(** * Further properties of the code *)

(** ** The string tests of the handlers *)

Section string_tests.

Local Arguments Ascii.eqb : simpl never.

Lemma append_cons x (a b : string) : String x a +:+ b = String x (a +:+ b).
Proof. reflexivity. Qed.

Lemma append_nil (b : string) : "" +:+ b = b.
Proof. reflexivity. Qed.

Lemma append_assoc (a b c : string) : (a +:+ b) +:+ c = a +:+ b +:+ c.
Proof. induction a as [|x a IH]; [done|]. rewrite !append_cons. by f_equal. Qed.

Lemma append_empty_r (a : string) : a +:+ "" = a.
Proof. induction a as [|x a IH]; [done|]. rewrite append_cons. by f_equal. Qed.

Lemma length_append (a b : string) :
  String.length (a +:+ b) = (String.length a + String.length b)%nat.
Proof.
  induction a as [|x a IH]; [done|]. rewrite append_cons. cbn. by rewrite IH.
Qed.

Lemma startswith_append p t : Py.startswith p (p +:+ t) = true.
Proof.
  induction p as [|x p IH]; [done|]. rewrite append_cons. cbn [Py.startswith].
  by rewrite Ascii.eqb_refl.
Qed.

Lemma startswith_drop p s :
  Py.startswith p s = true -> s = p +:+ Py.drop (String.length p) s.
Proof.
  revert s. induction p as [|x p IH]; intros s; [done|].
  destruct s as [|y s]; [done|]. cbn [Py.startswith String.length Py.drop].
  destruct (Ascii.eqb_spec x y) as [->|]; [|done].
  intros H. rewrite append_cons. by rewrite <- (IH _ H).
Qed.

Lemma contains_append a sub c : Py.contains sub (a +:+ sub +:+ c) = true.
Proof.
  induction a as [|x a IH].
  - rewrite append_nil. destruct (sub +:+ c) eqn:Heq;
      cbn [Py.contains]; rewrite <- Heq, startswith_append; done.
  - rewrite append_cons. cbn [Py.contains]. rewrite IH. apply orb_true_r.
Qed.

Lemma contains_split sub s :
  Py.contains sub s = true -> exists a c, s = a +:+ sub +:+ c.
Proof.
  induction s as [|x s IH].
  - cbn [Py.contains]. rewrite orb_false_r. intros H%startswith_drop.
    by exists "", (Py.drop (String.length sub) "").
  - cbn [Py.contains]. intros [H%startswith_drop|H]%orb_prop.
    + by exists "", (Py.drop (String.length sub) (String x s)).
    + destruct (IH H) as (a & c & ->). by exists (String x a), c.
Qed.

Lemma lower_append a b : Py.lower (a +:+ b) = Py.lower a +:+ Py.lower b.
Proof.
  induction a as [|x a IH]; [done|]. rewrite append_cons. cbn [Py.lower].
  by rewrite append_cons, IH.
Qed.

Lemma lower_ascii_idemp c : Py.lower_ascii (Py.lower_ascii c) = Py.lower_ascii c.
Proof. destruct c as [[] [] [] [] [] [] [] []]; reflexivity. Qed.

Lemma lower_idemp s : Py.lower (Py.lower s) = Py.lower s.
Proof.
  induction s as [|x s IH]; [done|]. cbn [Py.lower]. by rewrite lower_ascii_idemp, IH.
Qed.

End string_tests.

(** X1. [sub in s] holds exactly when [s] is some text, [sub], and some
    text. *)
Theorem contains_iff_occurs sub s :
  Py.contains sub s = true <-> exists a c, s = a +:+ sub +:+ c.
Proof.
  split; [apply contains_split|]. intros (a & c & ->). apply contains_append.
Qed.

(** X2. The test of line 148 ignores case in both directions: a body that
    carries the trigger in any mix of cases passes it for an administrator,
    whatever the case in which the bot's login is configured. *)
Theorem command_in_any_case E body a c :
  Py.lower body = Py.lower (a +:+ trigger E +:+ c) ->
  is_command E body "admin" = true.
Proof.
  intros H. unfold is_command. rewrite H, !lower_append.
  by rewrite contains_append.
Qed.

Lemma command_in_any_case_witness :
  is_command example.E "Hello @BOT AutoClose tomorrow" "admin" = true.
Proof.
  exact (command_in_any_case example.E "Hello @BOT AutoClose tomorrow"
           "hello " " tomorrow" eq_refl).
Defined.

(** X3. [s.partition(sep)] cuts [s] in three parts that give [s] back; when
    [sep] occurs in [s] the middle part is [sep] and the cut is at its first
    occurrence; when it does not, the first part is [s] and the others are
    empty. *)
Theorem partition_spec sep s :
  let '(a, b, c) := Py.partition sep s in
  a +:+ b +:+ c = s
  /\ (Py.contains sep s = true ->
      b = sep
      /\ forall a' c', s = a' +:+ sep +:+ c' -> (String.length a <= String.length a')%nat)
  /\ (Py.contains sep s = false -> a = s /\ b = "" /\ c = "").
Proof.
  induction s as [|x s IH].
  - cbn [Py.partition Py.contains]. rewrite orb_false_r.
    destruct (Py.startswith sep "") eqn:Hs.
    + split; [rewrite append_nil; by rewrite <- (startswith_drop _ _ Hs)|].
      split; [|done]. intros _. split; [done|]. intros; cbn; lia.
    + done.
  - cbn [Py.partition Py.contains].
    destruct (Py.startswith sep (String x s)) eqn:Hs.
    + split; [rewrite append_nil; by rewrite <- (startswith_drop _ _ Hs)|].
      split; [|done]. intros _. split; [done|]. intros; cbn; lia.
    + cbn [orb]. destruct (Py.partition sep s) as [[a b] c].
      destruct IH as (Hcat & Hyes & Hno).
      split; [rewrite append_cons; by rewrite Hcat|]. split.
      * intros Hc. destruct (Hyes Hc) as [-> Hfirst]. split; [done|].
        intros [|y a'] c' Heq.
        -- rewrite append_nil in Heq. rewrite Heq, startswith_append in Hs. done.
        -- rewrite append_cons in Heq. injection Heq as -> ->.
           cbn [String.length]. apply le_n_S. by eapply Hfirst.
      * intros Hc. by destruct (Hno Hc) as (-> & -> & ->).
Qed.

(** ** Commit messages *)

Section commit_messages.

Local Arguments Ascii.eqb : simpl never.

Lemma span_summary_split s :
  let '(h, r) := commit_message.span_summary s in
  s = h +:+ r
  /\ Py.free_of ":" h = true /\ Py.free_of "010" h = true
  /\ match r with
     | EmptyString => True
     | String c _ => c = ":"%char \/ c = "010"%char
     end.
Proof.
  induction s as [|x s IH]; [done|].
  cbn [commit_message.span_summary].
  destruct (Ascii.eqb_spec x ":") as [->|Hc].
  { cbn. auto. }
  destruct (Ascii.eqb_spec x "010") as [->|Hn].
  { cbn. auto. }
  cbn [orb]. destruct (commit_message.span_summary s) as [h r].
  destruct IH as (-> & Hh1 & Hh2 & Hr).
  rewrite append_cons. cbn [Py.free_of].
  apply Ascii.eqb_neq in Hc, Hn. rewrite Hc, Hn, Hh1, Hh2. done.
Qed.

Lemma span_summary_prefix p c rest :
  Py.free_of ":" p = true -> Py.free_of "010" p = true ->
  c = ":"%char \/ c = "010"%char ->
  commit_message.span_summary (p +:+ String c rest) = (p, String c rest).
Proof.
  intros Hp1 Hp2 Hc. induction p as [|x p IH].
  - rewrite append_nil. cbn [commit_message.span_summary].
    destruct Hc as [-> | ->]; reflexivity.
  - apply free_of_cons in Hp1 as [Hx1 Hp1]. apply free_of_cons in Hp2 as [Hx2 Hp2].
    rewrite append_cons. cbn [commit_message.span_summary].
    apply Ascii.eqb_neq in Hx1, Hx2. rewrite Hx1, Hx2. cbn [orb].
    by rewrite (IH Hp1 Hp2).
Qed.

End commit_messages.

(** X4. The regular expression of line 230 matches a commit message exactly
    when the message starts with a non-empty text without colon and line
    feed that is followed by a colon, and its group is that text. *)
Theorem re_match_spec msg p :
  commit_message.re_match msg = Some p <->
  p <> "" /\ Py.free_of ":" p = true /\ Py.free_of "010" p = true
  /\ exists rest, msg = p +:+ ":" +:+ rest.
Proof.
  unfold commit_message.re_match. split.
  - pose proof (span_summary_split msg) as H.
    destruct (commit_message.span_summary msg) as [h r].
    destruct H as (-> & Hh1 & Hh2 & Hr).
    destruct h as [|x h]; [done|].
    destruct r as [|c r]; [done|].
    destruct Hr as [-> | ->]; [|done].
    intros [= <-]. repeat split; try done. by exists r.
  - intros (Hne & Hp1 & Hp2 & rest & ->).
    change (":" +:+ rest) with (String ":" rest).
    rewrite span_summary_prefix by auto.
    by destruct p.
Qed.

Section split_and_strip.

Local Arguments Ascii.eqb : simpl never.

Lemma split_nonempty sep s : commit_message.split sep s <> [].
Proof.
  induction s as [|x s IH]; [done|]. cbn [commit_message.split].
  destruct (Ascii.eqb x sep); [done|].
  by destruct (commit_message.split sep s).
Qed.

Lemma split_free sep p :
  Py.free_of sep p = true -> commit_message.split sep p = [p].
Proof.
  induction p as [|x p IH]; [done|].
  intros [Hx Hp]%free_of_cons. cbn [commit_message.split].
  apply Ascii.eqb_neq in Hx. by rewrite Hx, (IH Hp).
Qed.

Lemma split_piece sep p rest :
  Py.free_of sep p = true ->
  commit_message.split sep (p +:+ String sep rest) = p :: commit_message.split sep rest.
Proof.
  induction p as [|x p IH].
  - intros _. rewrite append_nil. cbn [commit_message.split].
    by rewrite Ascii.eqb_refl.
  - intros [Hx Hp]%free_of_cons. rewrite append_cons. cbn [commit_message.split].
    apply Ascii.eqb_neq in Hx. by rewrite Hx, (IH Hp).
Qed.

Lemma str_join_cons sep x y l :
  str_join sep (x :: y :: l) = x +:+ sep +:+ str_join sep (y :: l).
Proof. reflexivity. Qed.

End split_and_strip.

(** X5. [s.split(",")] cuts [s] at every comma: the pieces contain no
    comma, there is at least one, and joined by commas they give [s] back;
    conversely the pieces of a joined list are the list. *)
Theorem split_join sep :
  (forall s,
     commit_message.split sep s <> []
     /\ Forall (fun p => Py.free_of sep p = true) (commit_message.split sep s)
     /\ str_join (String sep "") (commit_message.split sep s) = s)
  /\ (forall l,
        l <> [] -> Forall (fun p => Py.free_of sep p = true) l ->
        commit_message.split sep (str_join (String sep "") l) = l).
Proof.
  split.
  - intros s. split; [apply split_nonempty|].
    induction s as [|x s IH]; [by repeat constructor|].
    destruct IH as [IHf IHj]. cbn [commit_message.split].
    destruct (Ascii.eqb_spec x sep) as [->|Hx].
    + split; [constructor; [done|exact IHf]|].
      pose proof (split_nonempty sep s) as Hne.
      destruct (commit_message.split sep s) as [|p r]; [done|].
      rewrite str_join_cons, append_nil, IHj. reflexivity.
    + pose proof (split_nonempty sep s) as Hne.
      destruct (commit_message.split sep s) as [|p r]; [done|].
      pose proof IHf as [Hp Hr]%Forall_cons. split.
      * constructor; [|done]. cbn [Py.free_of].
        apply Ascii.eqb_neq in Hx. by rewrite Hx, Hp.
      * destruct r as [|q r].
        -- cbn [str_join] in IHj |- *. by rewrite IHj.
        -- rewrite str_join_cons in IHj |- *. by rewrite append_cons, IHj.
  - intros l Hne Hfree. induction l as [|p l IH]; [done|].
    apply Forall_cons in Hfree as [Hp Hl].
    destruct l as [|q l].
    + cbn [str_join]. by apply split_free.
    + rewrite str_join_cons.
      change (String sep "" +:+ str_join (String sep "") (q :: l))
        with (String sep (str_join (String sep "") (q :: l))).
      rewrite split_piece by done. f_equal. by apply IH.
Qed.

(** ** White space *)

Section white_space.

Local Arguments Ascii.eqb : simpl never.

Lemma drop_append p t : Py.drop (String.length p) (p +:+ t) = t.
Proof. induction p as [|x p IH]; [done|]. rewrite append_cons. cbn. exact IH. Qed.

Lemma append_eq_empty (a b : string) : a +:+ b = "" -> a = "" /\ b = "".
Proof. destruct a; [done|]. rewrite append_cons. discriminate. Qed.

(** Two texts a third one starts with: one starts with the other. *)
Lemma startswith_comparable p q s :
  Py.startswith p s = true -> Py.startswith q s = true ->
  Py.startswith p q || Py.startswith q p = true.
Proof.
  revert q s. induction p as [|x p IH]; intros q s; [done|].
  destruct q as [|y q]; [by rewrite orb_true_r|].
  destruct s as [|z s]; [done|]. cbn [Py.startswith].
  destruct (Ascii.eqb_spec x z) as [->|]; [|done].
  destruct (Ascii.eqb_spec y z) as [->|]; [|done].
  rewrite Ascii.eqb_refl. apply IH.
Qed.

Lemma after_any_some ws s t :
  commit_message.after_any ws s = Some t -> exists w, w ∈ ws /\ s = w +:+ t.
Proof.
  induction ws as [|w ws IH]; [done|]. cbn [commit_message.after_any].
  destruct (Py.startswith w s) eqn:Hw.
  - intros [= <-]. exists w. split; [left|]. by apply startswith_drop.
  - intros (w' & Hw' & ->)%IH. exists w'. split; [by right|done].
Qed.

Lemma whitespace_nonempty w : w ∈ commit_message.whitespace -> w <> "".
Proof.
  assert (H : forallb (fun w => negb (String.eqb w "")) commit_message.whitespace = true)
    by reflexivity.
  rewrite forallb_forall in H. intros Hw%list_elem_of_In%H ->. done.
Qed.

(** No white space character is the start of another one. *)
Lemma whitespace_prefix_free w w' :
  w ∈ commit_message.whitespace -> w' ∈ commit_message.whitespace ->
  Py.startswith w w' || Py.startswith w' w = true -> w = w'.
Proof.
  assert (H : forallb (fun w => forallb (fun w' =>
                implb (Py.startswith w w' || Py.startswith w' w) (String.eqb w w'))
                commit_message.whitespace) commit_message.whitespace = true)
    by (vm_compute; reflexivity).
  rewrite forallb_forall in H.
  intros Hw%list_elem_of_In%H Hw'%list_elem_of_In Hp.
  rewrite forallb_forall in Hw. specialize (Hw _ Hw'). rewrite Hp in Hw.
  by apply String.eqb_eq.
Qed.

Lemma after_any_whitespace ws w r :
  (forall x, x ∈ ws -> x ∈ commit_message.whitespace) ->
  w ∈ ws -> commit_message.after_any ws (w +:+ r) = Some r.
Proof.
  intros Hws Hw. induction ws as [|w' ws IH]; [by apply elem_of_nil in Hw|].
  cbn [commit_message.after_any].
  destruct (Py.startswith w' (w +:+ r)) eqn:Hw'.
  - assert (w' = w) as ->.
    { apply whitespace_prefix_free; [apply Hws; left|by apply Hws|].
      eapply startswith_comparable; [exact Hw'|apply startswith_append]. }
    by rewrite drop_append.
  - apply IH; [intros x Hx; apply Hws; by right|].
    apply elem_of_cons in Hw as [->|]; [|done].
    by rewrite startswith_append in Hw'.
Qed.

Lemma after_space_whitespace w r :
  w ∈ commit_message.whitespace -> commit_message.after_space (w +:+ r) = Some r.
Proof. by apply after_any_whitespace. Qed.

Lemma after_space_shorter s t :
  commit_message.after_space s = Some t -> (String.length t < String.length s)%nat.
Proof.
  intros (w & Hw%whitespace_nonempty & ->)%after_any_some.
  rewrite length_append. destruct w; [done|]. cbn. lia.
Qed.

Lemma lstrip_upto_split n s :
  exists a, s = a +:+ commit_message.lstrip_upto n s /\ blank a.
Proof.
  revert s. induction n as [|n IH]; intros s; [exists ""; split; [done|constructor]|].
  cbn [commit_message.lstrip_upto].
  destruct (commit_message.after_space s) as [t|] eqn:Ht;
    [|exists ""; split; [done|constructor]].
  apply after_any_some in Ht as (w & Hw & ->).
  destruct (IH t) as (a & Ha & Hblank). exists (w +:+ a). split.
  - by rewrite append_assoc, <- Ha.
  - by constructor.
Qed.

Lemma lstrip_upto_done n s :
  (String.length s <= n)%nat ->
  commit_message.after_space (commit_message.lstrip_upto n s) = None.
Proof.
  revert s. induction n as [|n IH]; intros s Hn.
  - destruct s; [reflexivity|cbn in Hn; lia].
  - cbn [commit_message.lstrip_upto].
    destruct (commit_message.after_space s) as [t|] eqn:Ht; [|done].
    apply IH. apply after_space_shorter in Ht. lia.
Qed.

Lemma lstrip_upto_enough n m s :
  (String.length s <= n)%nat -> (String.length s <= m)%nat ->
  commit_message.lstrip_upto n s = commit_message.lstrip_upto m s.
Proof.
  revert m s. induction n as [|n IH]; intros m s Hn Hm.
  - destruct s; [by destruct m|cbn in Hn; lia].
  - destruct m as [|m]; [destruct s; [done|cbn in Hm; lia]|].
    cbn [commit_message.lstrip_upto].
    destruct (commit_message.after_space s) as [t|] eqn:Ht; [|done].
    apply after_space_shorter in Ht. apply IH; lia.
Qed.

Lemma lstrip_split s : exists a, s = a +:+ commit_message.lstrip s /\ blank a.
Proof. apply lstrip_upto_split. Qed.

Lemma lstrip_done s : commit_message.after_space (commit_message.lstrip s) = None.
Proof. by apply lstrip_upto_done. Qed.

Lemma lstrip_fixed s :
  commit_message.after_space s = None -> commit_message.lstrip s = s.
Proof.
  intros H. unfold commit_message.lstrip.
  destruct (String.length s); [done|]. cbn [commit_message.lstrip_upto]. by rewrite H.
Qed.

Lemma lstrip_whitespace w r :
  w ∈ commit_message.whitespace ->
  commit_message.lstrip (w +:+ r) = commit_message.lstrip r.
Proof.
  intros Hw. unfold commit_message.lstrip at 1.
  pose proof (whitespace_nonempty w Hw) as Hne.
  rewrite length_append. destruct w as [|x w]; [done|].
  cbn [String.length Nat.add commit_message.lstrip_upto].
  rewrite (after_space_whitespace _ r Hw).
  apply lstrip_upto_enough; lia.
Qed.

Lemma blank_lstrip s : blank s <-> commit_message.lstrip s = "".
Proof.
  split.
  - induction 1 as [|w s Hw Hs IH]; [done|]. by rewrite lstrip_whitespace.
  - intros H. destruct (lstrip_split s) as (a & Hs & Ha).
    rewrite H, append_empty_r in Hs. by subst.
Qed.

Lemma blank_append a b : blank a -> blank b -> blank (a +:+ b).
Proof.
  induction 1 as [|w a Hw Ha IH]; [done|]. intros Hb.
  rewrite append_assoc. constructor; auto.
Qed.

Lemma rstrip_split s : exists c, s = commit_message.rstrip s +:+ c /\ blank c.
Proof.
  induction s as [|x s IH]; [exists ""; split; [done|constructor]|].
  cbn [commit_message.rstrip].
  destruct (String.eqb_spec (commit_message.lstrip (String x s)) "") as [Hb|Hb].
  - exists (String x s). split; [done|]. by apply blank_lstrip.
  - destruct IH as (c & Hs & Hc). exists c. split; [|done].
    rewrite append_cons. by rewrite <- Hs.
Qed.

(** The stripped text does not end with white space. *)
Lemma rstrip_done s u c :
  commit_message.rstrip s = u +:+ c -> blank c -> c = "".
Proof.
  revert u. induction s as [|x s IH]; intros u.
  - cbn. intros H%eq_sym%append_eq_empty _. by destruct H.
  - cbn [commit_message.rstrip].
    destruct (String.eqb_spec (commit_message.lstrip (String x s)) "") as [Hb|Hb].
    + intros H%eq_sym%append_eq_empty _. by destruct H.
    + destruct u as [|y u].
      * rewrite append_nil. intros <- Hc. destruct Hb.
        destruct (rstrip_split s) as (c' & Hs & Hc').
        apply blank_lstrip. rewrite Hs at 1.
        change (String x (commit_message.rstrip s +:+ c'))
          with (String x (commit_message.rstrip s) +:+ c').
        by apply blank_append.
      * rewrite append_cons. intros [= <- H]. by apply (IH u).
Qed.

Lemma rstrip_fixed v :
  (forall u c, v = u +:+ c -> blank c -> c = "") -> commit_message.rstrip v = v.
Proof.
  induction v as [|x v IH]; [done|]. intros Hv. cbn [commit_message.rstrip].
  destruct (String.eqb_spec (commit_message.lstrip (String x v)) "") as [Hb|Hb].
  - apply blank_lstrip in Hb. by specialize (Hv "" (String x v) eq_refl Hb).
  - f_equal. apply IH. intros u c -> Hc. by apply (Hv (String x u) c).
Qed.

End white_space.

(** X6. [s.strip()] is [s] without the white space at its two ends, the
    white space being the one of Unicode: [s] is white space, the stripped
    text and white space, and the stripped text neither starts nor ends
    with a white space character, so that stripping it again, on either
    side, changes nothing. *)
Theorem strip_spec s :
  (exists a c, s = a +:+ commit_message.strip s +:+ c /\ blank a /\ blank c)
  /\ (forall w t, w ∈ commit_message.whitespace ->
      commit_message.strip s <> w +:+ t /\ commit_message.strip s <> t +:+ w)
  /\ commit_message.lstrip (commit_message.strip s) = commit_message.strip s
  /\ commit_message.rstrip (commit_message.strip s) = commit_message.strip s.
Proof.
  unfold commit_message.strip.
  destruct (lstrip_split s) as (a & Hs & Ha).
  destruct (rstrip_split (commit_message.lstrip s)) as (c & Hl & Hc).
  assert (Hstart : forall w t, w ∈ commit_message.whitespace ->
            commit_message.rstrip (commit_message.lstrip s) <> w +:+ t).
  { intros w t Hw Heq. pose proof (lstrip_done s) as Hdone.
    rewrite Hl, Heq, append_assoc, after_space_whitespace in Hdone; done. }
  assert (Hend : forall w t, w ∈ commit_message.whitespace ->
            commit_message.rstrip (commit_message.lstrip s) <> t +:+ w).
  { intros w t Hw Heq. apply (rstrip_done _ _ _) in Heq.
    - subst w. by apply whitespace_nonempty in Hw.
    - rewrite <- (append_empty_r w). constructor; [done|constructor]. }
  split; [|split; [|split]].
  - exists a, c. by rewrite <- Hl.
  - intros w t Hw. split; [by apply Hstart|by apply Hend].
  - apply lstrip_fixed.
    destruct (commit_message.after_space _) as [t|] eqn:Ht; [|done].
    apply after_any_some in Ht as (w & Hw & Heq). by destruct (Hstart w t Hw).
  - apply rstrip_fixed. intros u c'. apply rstrip_done.
Qed.

Example strip_no_break_space :
  commit_message.strip (commit_message.bytes [194; 160] +:+ "lib" +:+
                        commit_message.bytes [32; 227; 128; 128]) = "lib"
  /\ commit_message.lbls ("bgpd," +:+ commit_message.bytes [194; 160] +:+ "lib")
     = ({["bgp"; "libfrr"]} : gset string).
Proof. split; vm_compute; reflexivity. Qed.

(** ** The pull request handler *)

Section pull_request_scan.

Lemma scan_step b s (L : gset string) msg :
  commit_message.scan (b, s, L) msg
  = (b || bad_summary msg, s || unsigned msg, L ∪ commit_labels msg).
Proof.
  unfold commit_message.scan, bad_summary, unsigned, commit_labels, skipped.
  destruct (Py.startswith "Revert" msg || Py.startswith "Merge" msg).
  - cbn. by rewrite !orb_false_r, (right_id_L ∅ (∪)).
  - cbn. destruct (commit_message.re_match msg); cbn;
      by rewrite ?orb_false_r, ?orb_true_r, ?(right_id_L ∅ (∪)).
Qed.

Lemma scan_fold commits b s (L : gset string) :
  foldl commit_message.scan (b, s, L) commits
  = (b || existsb bad_summary commits, s || existsb unsigned commits,
     L ∪ ⋃ (commit_labels <$> commits)).
Proof.
  revert b s L. induction commits as [|msg commits IH]; intros b s L.
  - cbn. by rewrite !orb_false_r, (right_id_L ∅ (∪)).
  - cbn [foldl]. rewrite scan_step, IH. cbn [existsb fmap list_fmap union_list foldr].
    by rewrite !orb_assoc, (assoc_L (∪)).
Qed.

End pull_request_scan.

(** X7. The loop of [pull_request_opened] over the commits ends with
    [warn_bad_msg] set exactly when some commit that is neither a revert
    nor a merge has no [prefix:] summary, with [warn_signoff] set exactly
    when some such commit has no [Signed-off-by:], and with the union of
    the labels of the commits. *)
Theorem scan_commits commits :
  foldl commit_message.scan (false, false, ∅) commits
  = (existsb bad_summary commits, existsb unsigned commits,
     ⋃ (commit_labels <$> commits)).
Proof. rewrite scan_fold. cbn [orb]. by rewrite (left_id_L ∅ (∪)). Qed.

(** X8. Every label the handler collects for a pull request is the entry of
    [label_map] for a component, stripped of white space, of the
    comma-separated prefix of a commit that is neither a revert nor a
    merge; and every such entry is collected. *)
Theorem collected_labels commits l :
  l ∈ (foldl commit_message.scan (false, false, ∅) commits).2
  <-> exists msg p k,
        msg ∈ commits /\ skipped msg = false
        /\ commit_message.re_match msg = Some p
        /\ k ∈ (commit_message.strip <$> commit_message.split "," p)
        /\ assoc k label_map = Some l.
Proof.
  rewrite scan_fold. cbn [snd]. rewrite (left_id_L ∅ (∪)), elem_of_union_list. split.
  - intros (X & [msg [-> Hmsg]]%list_elem_of_fmap & Hl).
    unfold commit_labels in Hl. destruct (skipped msg) eqn:Hskip; [set_solver|].
    destruct (commit_message.re_match msg) as [p|] eqn:Hp; [|set_solver].
    unfold commit_message.lbls in Hl.
    apply elem_of_list_to_set, list_elem_of_omap in Hl as (k & Hk & Hkl).
    by exists msg, p, k.
  - intros (msg & p & k & Hmsg & Hskip & Hp & Hk & Hkl).
    exists (commit_labels msg). split; [by apply list_elem_of_fmap_2|].
    unfold commit_labels. rewrite Hskip, Hp. unfold commit_message.lbls.
    apply elem_of_list_to_set, list_elem_of_omap. by exists k.
Qed.

(** X9. For a pull request GitHub knows, [pull_request_opened] requests
    changes, in one review, exactly when a commit has a bad summary or
    lacks the sign-off, sets the collected labels exactly when there are
    some, answers [200], and schedules nothing; a pull request whose
    commits are all in order and carry no known prefix causes no call at
    all. *)
Theorem pull_request_opened_outcome E j w rn n commits :
  subscript2 j "repository" "full_name" = inr (JStr rn) ->
  subscript j "number" = inr (JNum n) ->
  gh_get_repo (g E) (calls w) rn = true ->
  gh_get_pull (g E) (calls w) rn n = true ->
  gh_get_commits (g E) (calls w) rn n = Some commits ->
  let warn_bad_msg := existsb bad_summary commits in
  let warn_signoff := existsb unsigned commits in
  let labels : gset string := ⋃ (commit_labels <$> commits) in
  let review :=
    if warn_bad_msg || warn_signoff
    then [CreateReview rn n (review_comment warn_bad_msg warn_signoff) "REQUEST_CHANGES"]
    else [] in
  let labelling := if bool_decide (labels = ∅) then [] else [SetLabels rn n labels] in
  (forall c, c ∈ review -> gh_accepts (g E) (calls w) c = true) ->
  (forall c, c ∈ labelling -> gh_accepts (g E) (calls w ++ review) c = true) ->
  pull_request_opened E j w
  = (mkWorld (jobs w) ((calls w ++ review) ++ labelling) (logs w), inr OK_200).
Proof.
  intros Hrn Hnum Hrepo Hpull Hcommits warn_bad_msg warn_signoff labels review labelling
         Hreview Hlabelling.
  unfold pull_request_opened.
  rewrite (bind_ok _ _ _ _ _ (eq_trans (getitem2_run _ _ _ _) (f_equal _ Hrn))).
  rewrite (bind_ok _ _ _ _ _ (get_repo_json_found _ _ _ Hrepo)).
  rewrite (bind_ok _ _ _ _ _ (eq_trans (getitem_run _ _ _) (f_equal _ Hnum))).
  assert (Hpr : get_pull_json E (mkRepository rn) (JNum n) w = (w, inr n)).
  { cbn [get_pull_json]. unfold api_read. cbn [full_name]. by rewrite Hpull. }
  rewrite (bind_ok _ _ _ _ _ Hpr).
  assert (Hcs : get_commits E (mkRepository rn) n w = (w, inr commits)).
  { unfold get_commits, api_read. cbn [full_name]. by rewrite Hcommits. }
  rewrite (bind_ok _ _ _ _ _ Hcs).
  rewrite scan_fold. cbn [orb]. rewrite (left_id_L ∅ (∪)).
  fold warn_bad_msg warn_signoff labels. cbv iota beta.
  cbn [full_name]. fold (review_comment warn_bad_msg warn_signoff).
  assert (Hstep1 :
    (if warn_bad_msg || warn_signoff
     then api_call E (CreateReview rn n (review_comment warn_bad_msg warn_signoff)
                        "REQUEST_CHANGES")
     else mret ()) w
    = (mkWorld (jobs w) (calls w ++ review) (logs w), inr tt)).
  { subst review. destruct (warn_bad_msg || warn_signoff).
    - rewrite api_call_run, Hreview by (apply list_elem_of_singleton; done). done.
    - cbn. rewrite app_nil_r. by destruct w. }
  rewrite (bind_ok _ _ _ _ _ Hstep1).
  assert (Hstep2 :
    (if bool_decide (labels = ∅) then mret ()
     else api_call E (SetLabels rn n labels))
      (mkWorld (jobs w) (calls w ++ review) (logs w))
    = (mkWorld (jobs w) ((calls w ++ review) ++ labelling) (logs w), inr tt)).
  { subst labelling. destruct (bool_decide (labels = ∅)).
    - cbn. by rewrite app_nil_r.
    - rewrite api_call_run. cbn [calls jobs logs].
      rewrite Hlabelling by (apply list_elem_of_singleton; done). done. }
  by rewrite (bind_ok _ _ _ _ _ Hstep2).
Qed.

Lemma pull_request_opened_outcome_witness :
  let gh := example.github_with (fun _ => true) in
  let commits := ["bgpd, lib: fix a crash"; "Merge branch 'master'"; "typo"] in
  let E := example.deployment
             (mkGithub (gh_get_repo gh) (gh_get_issue gh)
                (gh_get_collaborator_permission gh) (gh_get_comment gh) (gh_get_pull gh)
                (fun _ _ _ => Some commits) (gh_accepts gh)) in
  let j := JObj [ ("action", JStr "opened"); ("number", JNum 7);
                  ("repository", JObj [("full_name", JStr "acme/repo")]) ] in
  pull_request_opened E j example.idle
  = (mkWorld ∅
       [CreateReview "acme/repo" 7 (review_comment true true) "REQUEST_CHANGES";
        SetLabels "acme/repo" 7 (⋃ (commit_labels <$> commits))]
       [],
     inr OK_200).
Proof.
  intros gh commits E j.
  refine (pull_request_opened_outcome E j example.idle "acme/repo" 7 commits
            eq_refl eq_refl eq_refl eq_refl eq_refl _ _); intros c _; reflexivity.
Defined.

(** ** Deliveries *)

Section deliveries.
Context (E : env).

(** The signature check only reads and logs. *)
Lemma parse_payload_verified_world req w :
  signature_verified E req = true ->
  exists w1,
    jobs w1 = jobs w /\ calls w1 = calls w
    /\ parse_payload E req w =
       (if String.eqb (method req) "POST" then handle_webhook E req w1 else (w1, inr OK_200)).
Proof.
  intros Hsig. unfold parse_payload, try_except.
  rewrite bind_run, bind_run, gh_sig_valid_run.
  destruct (headers req !! "X_HUB_SIGNATURE") as [theirs|] eqn:Hh.
  - rewrite Hsig. eexists. split; [|split]; cycle 2.
    + cbn [mret M_ret]. rewrite bind_run. cbn [log].
      by destruct (String.eqb (method req) "POST").
    + done.
    + done.
  - unfold signature_verified in Hsig. by rewrite Hh in Hsig.
Qed.

Lemma parse_payload_unverified_world req w :
  signature_verified E req = false ->
  jobs (parse_payload E req w).1 = jobs w /\ calls (parse_payload E req w).1 = calls w.
Proof.
  intros Hsig. unfold parse_payload, try_except.
  rewrite bind_run, bind_run, gh_sig_valid_run.
  destruct (headers req !! "X_HUB_SIGNATURE"); [|done].
  by rewrite Hsig.
Qed.

(** The part of [handle_webhook] before the handler, for a payload whose
    action has a handler. *)
Lemma handle_webhook_selected req w ev acts j a handler :
  headers req !! "X_GITHUB_EVENT" = Some ev ->
  assoc ev (event_handlers E) = Some acts ->
  get_json req = Some j ->
  subscript j "action" = inr (JStr a) ->
  assoc a acts = Some handler ->
  handle_webhook E req w =
  (mine ← triggered_by_me E j;
   if mine : bool then mret OK_200
   else log ("Handling action '" +:+ a +:+ "' on event '" +:+ ev +:+ "'");; handler j)
    (mkWorld (jobs w) (calls w) (logs w ++ ["Handling webhook '" +:+ ev +:+ "'"])).
Proof.
  intros Hev Hacts Hj Ha Hh. unfold handle_webhook.
  rewrite Hev, bind_run, Hacts, Hj. cbn [log].
  unfold try_except at 1. rewrite bind_run, bind_run, getitem_run, Ha.
  cbn [mret M_ret]. by rewrite Hh.
Qed.

End deliveries.

(** X10. An event whose sender is the bot itself is ignored: once the
    repository of the payload is found, [handle_webhook] answers [200]
    without running the handler, and neither the job store nor GitHub is
    touched. *)
Theorem own_event_is_ignored E req w ev acts j a handler rn :
  headers req !! "X_GITHUB_EVENT" = Some ev ->
  assoc ev (event_handlers E) = Some acts ->
  get_json req = Some j ->
  subscript j "action" = inr (JStr a) ->
  assoc a acts = Some handler ->
  subscript2 j "sender" "login" = inr (JStr (my_user E)) ->
  subscript2 j "repository" "full_name" = inr (JStr rn) ->
  gh_get_repo (g E) (calls w) rn = true ->
  handle_webhook E req w
  = (mkWorld (jobs w) (calls w)
       ((logs w ++ ["Handling webhook '" +:+ ev +:+ "'"])
        ++ ["[-] Ignoring event triggered by me"]),
     inr OK_200).
Proof.
  intros Hev Hacts Hj Ha Hh Hsender Hrn Hrepo.
  rewrite (handle_webhook_selected E req w ev acts j a handler) by done.
  rewrite bind_run. unfold triggered_by_me, try_except.
  rewrite (bind_ok _ _ _ _ _ (eq_trans (getitem2_run _ _ _ _) (f_equal _ Hsender))).
  rewrite (bind_ok _ _ _ _ _ (eq_trans (getitem2_run _ _ _ _) (f_equal _ Hrn))).
  rewrite (bind_ok _ _ _ _ _
             (get_repo_json_found E rn
                (mkWorld (jobs w) (calls w) (logs w ++ ["Handling webhook '" +:+ ev +:+ "'"]))
                Hrepo)).
  cbn [json_eq_str]. by rewrite String.eqb_refl.
Qed.

Lemma own_event_is_ignored_witness :
  handle_webhook example.E
    (example.delivery (Some "issue_comment")
       (Some (example.comment_payload "bot" "This issue will no longer be closed.")))
    example.pending
  = (mkWorld (jobs example.pending) []
       ["Handling webhook 'issue_comment'"; "[-] Ignoring event triggered by me"],
     inr OK_200).
Proof.
  exact (own_event_is_ignored example.E
           (example.delivery (Some "issue_comment")
              (Some (example.comment_payload "bot" "This issue will no longer be closed.")))
           example.pending "issue_comment"
           [("created", issue_comment_created example.E)]
           (example.comment_payload "bot" "This issue will no longer be closed.")
           "created" (issue_comment_created example.E) "acme/repo"
           eq_refl eq_refl eq_refl eq_refl eq_refl eq_refl eq_refl eq_refl).
Defined.

(** X11. An event of another sender reaches its handler: [handle_webhook]
    is the handler run on the payload, after the two lines it logs.  The
    same holds for a payload without a [sender], whose [KeyError] is
    passed over. *)
Theorem foreign_event_is_handled E req w ev acts j a handler :
  headers req !! "X_GITHUB_EVENT" = Some ev ->
  assoc ev (event_handlers E) = Some acts ->
  get_json req = Some j ->
  subscript j "action" = inr (JStr a) ->
  assoc a acts = Some handler ->
  (subscript j "sender" = inl KeyError
   \/ exists login rn,
        subscript2 j "sender" "login" = inr (JStr login) /\ login <> my_user E
        /\ subscript2 j "repository" "full_name" = inr (JStr rn)
        /\ gh_get_repo (g E) (calls w) rn = true) ->
  handle_webhook E req w
  = handler j
      (mkWorld (jobs w) (calls w)
         ((logs w ++ ["Handling webhook '" +:+ ev +:+ "'"])
          ++ ["Handling action '" +:+ a +:+ "' on event '" +:+ ev +:+ "'"])).
Proof.
  intros Hev Hacts Hj Ha Hh Hsender.
  rewrite (handle_webhook_selected E req w ev acts j a handler) by done.
  rewrite bind_run. unfold triggered_by_me, try_except.
  destruct Hsender as [Hnone | (login & rn & Hsender & Hne & Hrn & Hrepo)].
  - rewrite bind_run, getitem2_run. unfold subscript2. rewrite Hnone. reflexivity.
  - rewrite (bind_ok _ _ _ _ _ (eq_trans (getitem2_run _ _ _ _) (f_equal _ Hsender))).
    rewrite (bind_ok _ _ _ _ _ (eq_trans (getitem2_run _ _ _ _) (f_equal _ Hrn))).
    rewrite (bind_ok _ _ _ _ _
               (get_repo_json_found E rn
                  (mkWorld (jobs w) (calls w) (logs w ++ ["Handling webhook '" +:+ ev +:+ "'"]))
                  Hrepo)).
    cbn [json_eq_str]. apply String.eqb_neq in Hne. rewrite Hne. reflexivity.
Qed.

Lemma foreign_event_is_handled_witness :
  handle_webhook example.E
    (example.delivery (Some "issues") (Some (example.labeled_payload "bug")))
    example.idle
  = issue_labeled example.E (example.labeled_payload "bug")
      (mkWorld ∅ [] ["Handling webhook 'issues'"; "Handling action 'labeled' on event 'issues'"]).
Proof.
  refine (foreign_event_is_handled example.E
            (example.delivery (Some "issues") (Some (example.labeled_payload "bug")))
            example.idle "issues"
            [("labeled", issue_labeled example.E)] (example.labeled_payload "bug")
            "labeled" (issue_labeled example.E)
            eq_refl eq_refl eq_refl eq_refl eq_refl _).
  right. exists "alice", "acme/repo". repeat split. discriminate.
Defined.

Section unselected.
Context (E : env).

Lemma handle_webhook_unselected req w :
  match headers req !! "X_GITHUB_EVENT", get_json req with
  | Some ev, Some j =>
      match assoc ev (event_handlers E), subscript j "action" with
      | Some acts, inr (JStr a) => assoc a acts
      | _, _ => None
      end
  | _, _ => None
  end = None ->
  jobs (handle_webhook E req w).1 = jobs w /\ calls (handle_webhook E req w).1 = calls w.
Proof.
  unfold handle_webhook.
  destruct (headers req !! "X_GITHUB_EVENT") as [ev|]; [|done].
  rewrite bind_run. cbn [log].
  destruct (assoc ev (event_handlers E)) as [acts|]; [|by destruct (get_json req)].
  destruct (get_json req) as [j|]; [|done].
  unfold try_except. rewrite bind_run, bind_run, getitem_run.
  destruct (subscript j "action") as [e|a].
  - intros _. by destruct e.
  - cbn [mret M_ret]. destruct a as [|b|n|s|l|o]; try done.
    intros Hs. by rewrite Hs.
Qed.

End unselected.

(** X12. A delivery for which no handler is selected (its signature is
    not verified, it is no POST, its event type or its action has no entry
    in [event_handlers], or its body gives no action) changes neither the
    job store nor anything on GitHub, whatever it is answered. *)
Theorem delivery_without_handler_changes_nothing E req w :
  selected_handler E req = None ->
  jobs (parse_payload E req w).1 = jobs w /\ calls (parse_payload E req w).1 = calls w.
Proof.
  unfold selected_handler. intros Hsel.
  destruct (signature_verified E req) eqn:Hsig;
    [|by apply parse_payload_unverified_world].
  destruct (parse_payload_verified_world E req w Hsig) as (w1 & Hjobs & Hcalls & ->).
  destruct (String.eqb (method req) "POST"); [|done].
  cbn [andb] in Hsel.
  destruct (handle_webhook_unselected E req w1 Hsel) as [-> ->]. done.
Qed.

Lemma delivery_without_handler_changes_nothing_witness :
  jobs (parse_payload example.E
          (example.delivery (Some "issues")
             (Some (JObj [("action", JStr "closed")]))) example.pending).1
  = jobs example.pending.
Proof.
  exact (proj1 (delivery_without_handler_changes_nothing example.E
                  (example.delivery (Some "issues")
                     (Some (JObj [("action", JStr "closed")])))
                  example.pending eq_refl)).
Defined.

(** X13. A verified POST of a known event type whose body decodes to
    something that is no object (a list, a string, a number, [null]) is not
    answered: the [TypeError] of [j["action"]] is no [KeyError] and leaves
    the view. *)
Theorem non_object_payload_raises E req w ev acts j :
  signature_verified E req = true ->
  method req = "POST" ->
  headers req !! "X_GITHUB_EVENT" = Some ev ->
  assoc ev (event_handlers E) = Some acts ->
  get_json req = Some j ->
  (forall items, j <> JObj items) ->
  (parse_payload E req w).2 = inl TypeError.
Proof.
  intros Hsig Hm Hev Hacts Hj Hobj.
  destruct (parse_payload_verified_world E req w Hsig) as (w1 & _ & _ & ->).
  rewrite Hm, String.eqb_refl. unfold handle_webhook.
  rewrite Hev, bind_run, Hacts, Hj. cbn [log].
  unfold try_except. rewrite bind_run, bind_run, getitem_run.
  destruct j; try done. by destruct (Hobj items).
Qed.

Lemma non_object_payload_raises_witness :
  (parse_payload example.E (example.delivery (Some "issues") (Some JNull)) example.idle).2
  = inl TypeError.
Proof.
  refine (non_object_payload_raises example.E
            (example.delivery (Some "issues") (Some JNull)) example.idle
            "issues" [("labeled", issue_labeled example.E)] JNull
            eq_refl eq_refl eq_refl eq_refl eq_refl _).
  discriminate.
Defined.

(** ** What the endpoint may do to the job store *)

Section job_store_steps.
Context (R : relation (gmap string Job)) `{!Reflexive R, !Transitive R}.

Lemma steps_keep {A : Type} (m : M A) :
  (forall w, jobs (m w).1 = jobs w) -> steps R m.
Proof. intros H w. by rewrite H. Qed.

Lemma steps_bind {A B : Type} (m : M A) (f : A -> M B) :
  steps R m -> (forall a, steps R (f a)) -> steps R (m ≫= f).
Proof.
  intros Hm Hf w. rewrite bind_run. specialize (Hm w).
  destruct (m w) as [w1 [e|a]]; [done|].
  etrans; [exact Hm|]. apply Hf.
Qed.

Lemma steps_try {A : Type} (m : M A) catches (h : M A) :
  steps R m -> steps R h -> steps R (try_except m catches h).
Proof.
  intros Hm Hh w. unfold try_except. specialize (Hm w).
  destruct (m w) as [w1 [e|a]]; [|done].
  destruct (catches e); [|done]. etrans; [exact Hm|]. apply Hh.
Qed.

Lemma steps_ret {A : Type} (a : A) : steps R (mret a).
Proof. by apply steps_keep. Qed.

Lemma steps_raise {A : Type} e : steps R (raise e : M A).
Proof. by apply steps_keep. Qed.

Lemma steps_pure {A : Type} (r : exn + A) : steps R (pure r).
Proof. by apply steps_keep. Qed.

Lemma steps_log msg : steps R (log msg).
Proof. by apply steps_keep. Qed.

Lemma steps_api_read E {A : Type} (ask : github -> list call -> option A) :
  steps R (api_read E ask).
Proof. apply steps_keep. intros w. unfold api_read. by destruct (ask _ _). Qed.

Lemma steps_api_call E c : steps R (api_call E c).
Proof. apply steps_keep. intros w. unfold api_call. by destruct (gh_accepts _ _ _). Qed.

Lemma steps_get_job i : steps R (scheduler.get_job i).
Proof. by apply steps_keep. Qed.

Lemma steps_remove_job i :
  (forall m, R m (delete i m)) -> steps R (scheduler.remove_job i).
Proof.
  intros H w. unfold scheduler.remove_job. destruct (jobs w !! i); [apply H|done].
Qed.

Lemma steps_add_job when a i :
  (forall m, R m (<[i := mkJob when a]> m)) -> steps R (scheduler.add_job when a i).
Proof. intros H w. apply H. Qed.

End job_store_steps.

Section grows_only_steps.
Context (E : env).

Global Instance grows_only_refl : Reflexive (grows_only E).
Proof. intros m i job H. by left. Qed.

Global Instance grows_only_trans : Transitive (grows_only E).
Proof.
  intros m1 m2 m3 H12 H23 i job H.
  destruct (H23 i job H) as [H2|]; [by apply H12|by right].
Qed.

Lemma grows_only_delete i m : grows_only E m (delete i m).
Proof.
  intros k job H. left. destruct (decide (i = k)) as [->|Hne].
  - by rewrite lookup_delete_eq in H.
  - by rewrite lookup_delete_ne in H.
Qed.

Lemma grows_only_insert rn num when m :
  (now E < when)%Z ->
  grows_only E m (<[make_id rn num := mkJob when (rn, num)]> m).
Proof.
  intros Hwhen k job H. destruct (decide (make_id rn num = k)) as [<-|Hne].
  - rewrite lookup_insert_eq in H. injection H as <-. by right.
  - rewrite lookup_insert_ne in H by done. by left.
Qed.

Lemma steps_schedule_close_issue issue when :
  (now E < when)%Z -> steps (grows_only E) (schedule_close_issue issue when).
Proof.
  intros Hwhen. unfold schedule_close_issue.
  apply steps_bind; [apply _|apply steps_log; apply _|]. intros _.
  apply steps_add_job. intros m. by apply grows_only_insert.
Qed.

(** Follows the structure of a handler, leaving the calls of the scheduler
    functions. *)
Ltac walk :=
  repeat first
    [ apply steps_ret; apply _
    | apply steps_raise; apply _
    | apply steps_pure; apply _
    | apply steps_log; apply _
    | apply steps_api_read; apply _
    | apply steps_api_call; apply _
    | apply steps_get_job; apply _
    | apply steps_remove_job; [apply _|apply grows_only_delete]
    | apply steps_try; [apply _| |]
    | apply steps_bind; [apply _| |intros ?]
    | match goal with
      | |- steps _ (match ?x with _ => _ end) => destruct x eqn:?
      end ].

Lemma steps_get_repo_json v : steps (grows_only E) (get_repo_json E v).
Proof. unfold get_repo_json, get_repo. walk. Qed.

Lemma steps_get_issue_json repo v : steps (grows_only E) (get_issue_json E repo v).
Proof. unfold get_issue_json, get_issue. walk. Qed.

Lemma steps_issue_labeled j : steps (grows_only E) (issue_labeled E j).
Proof.
  unfold issue_labeled, getitem2, create_comment.
  apply steps_bind; [apply _|walk|intros reponame].
  apply steps_bind; [apply _|walk|intros issuenum].
  apply steps_bind; [apply _|apply steps_get_repo_json|intros repo].
  apply steps_bind; [apply _|apply steps_get_issue_json|intros issue].
  apply steps_bind; [apply _|walk|intros labelname].
  apply steps_bind; [apply _| |intros _; walk].
  destruct (json_eq_str labelname triggerlabel); [|walk].
  apply steps_bind; [apply _| |intros _; walk].
  apply steps_schedule_close_issue. unfold one_week. lia.
Qed.

Lemma steps_issue_comment_created j : steps (grows_only E) (issue_comment_created E j).
Proof.
  unfold issue_comment_created, getitem2, get_collaborator_permission_json,
    get_collaborator_permission, add_to_labels, remove_from_labels, create_comment,
    create_reaction, get_comment_json, get_comment.
  apply steps_bind; [apply _|walk|intros reponame].
  apply steps_bind; [apply _|walk|intros issuenum].
  apply steps_bind; [apply _|apply steps_get_repo_json|intros repo].
  apply steps_bind; [apply _|apply steps_get_issue_json|intros issue].
  cbv zeta.
  apply steps_bind; [apply _|walk|intros body].
  apply steps_bind; [apply _|walk|intros sender].
  apply steps_bind; [apply _|walk|intros perm].
  apply steps_bind; [apply _|walk|intros _].
  apply steps_bind; [apply _|walk|intros _].
  apply steps_bind; [apply _|walk|intros body'].
  apply steps_bind; [apply _| |intros _; walk].
  destruct (Py.contains _ _ && String.eqb perm "admin"); [|walk].
  destruct (dateparser_parse E (now E) _) as [[closedate|t]|]; [|walk..].
  destruct (Z.ltb_spec (now E) closedate); [|walk].
  apply steps_bind; [apply _|by apply steps_schedule_close_issue|intros _].
  walk.
Qed.

Lemma steps_pull_request_opened j : steps (grows_only E) (pull_request_opened E j).
Proof.
  unfold pull_request_opened, getitem2, getitem, get_pull_json, get_commits.
  apply steps_bind; [apply _|walk|intros reponame].
  apply steps_bind; [apply _|apply steps_get_repo_json|intros repo].
  apply steps_bind; [apply _|walk|intros num].
  apply steps_bind; [apply _|walk|intros pr].
  apply steps_bind; [apply _|walk|intros commits].
  destruct (foldl _ _ _) as [[warn_bad_msg warn_signoff] labels].
  apply steps_bind; [apply _|destruct (_ || _); walk|intros _].
  apply steps_bind; [apply _|destruct (bool_decide _); walk|intros _].
  walk.
Qed.

Lemma steps_handler ev acts a handler j :
  assoc ev (event_handlers E) = Some acts ->
  assoc a acts = Some handler ->
  steps (grows_only E) (handler j).
Proof.
  unfold event_handlers. cbn [assoc].
  repeat (destruct (String.eqb ev _);
          [ intros [= <-]; cbn [assoc]; destruct (String.eqb a _); [|discriminate];
            intros [= <-];
            auto using steps_issue_labeled, steps_issue_comment_created,
                       steps_pull_request_opened
          | ]).
  discriminate.
Qed.

Lemma steps_handle_webhook req : steps (grows_only E) (handle_webhook E req).
Proof.
  unfold handle_webhook.
  destruct (headers req !! "X_GITHUB_EVENT") as [ev|]; [|walk].
  apply steps_bind; [apply _|walk|intros _].
  destruct (assoc ev (event_handlers E)) as [acts|] eqn:Hacts; [|walk].
  destruct (get_json req) as [j|]; [|walk].
  apply steps_bind; [apply _|unfold getitem; walk|intros action].
  destruct action as [action|]; [|walk].
  destruct action as [| | |a| |]; [walk|walk|walk| |walk|walk].
  destruct (assoc a acts) as [handler|] eqn:Hh; [|walk].
  apply steps_bind; [apply _| |intros mine].
  { unfold triggered_by_me, getitem2.
    apply steps_try; [apply _| |walk].
    apply steps_bind; [apply _|walk|intros sender].
    apply steps_bind; [apply _|walk|intros reponame].
    apply steps_bind; [apply _|apply steps_get_repo_json|intros repo].
    destruct (json_eq_str _ _); walk. }
  destruct mine; [walk|].
  apply steps_bind; [apply _|walk|intros _].
  by eapply steps_handler.
Qed.

Lemma steps_parse_payload req : steps (grows_only E) (parse_payload E req).
Proof.
  unfold parse_payload, gh_sig_valid.
  apply steps_bind; [apply _| |intros verdict].
  { apply steps_try; [apply _| |walk].
    apply steps_bind; [apply _| |intros valid; walk].
    destruct (headers req !! "X_HUB_SIGNATURE"); walk. }
  destruct verdict; [walk|].
  apply steps_bind; [apply _|walk|intros _].
  destruct (String.eqb _ _); [apply steps_handle_webhook|walk].
Qed.

End grows_only_steps.

(** X14. Whatever the delivery and whatever GitHub answers, every job in
    the store after [parse_payload] either was in the store before, with
    the same run date and arguments, or is stored under the id made from
    its own arguments and is due after the current time: the endpoint
    never schedules into the past, never files a job under the id of
    another issue and never moves a job it does not replace. *)
Theorem endpoint_grows_only E req w i job :
  jobs (parse_payload E req w).1 !! i = Some job ->
  jobs w !! i = Some job
  \/ (i = make_id (args job).1 (args job).2 /\ (now E < run_date job)%Z).
Proof. apply (steps_parse_payload E req w). Qed.

Lemma endpoint_grows_only_witness :
  let w' := (parse_payload example.E
               (example.delivery (Some "issue_comment")
                  (Some (example.comment_payload "alice" "@bot autoclose in 3 days")))
               example.pending).1 in
  jobs w' !! "acme/repo@@@42" = Some (mkJob (1700000000 + 3 * 86400) ("acme/repo", 42%Z))
  /\ (1700000000 < 1700000000 + 3 * 86400)%Z.
Proof.
  intros w'. split; [reflexivity|].
  destruct (endpoint_grows_only example.E _ example.pending "acme/repo@@@42"
              (mkJob (1700000000 + 3 * 86400) ("acme/repo", 42%Z))
              (eq_refl : jobs w' !! "acme/repo@@@42" = _)) as [H|[_ H]].
  - discriminate H.
  - exact H.
Defined.

(** ** The order of effects in the issue handlers *)



(** X22. An administrator's command whose date text parses to a datetime
    aware of a time zone schedules nothing: comparing it with the naive
    current time raises [TypeError], which leaves the handler, and the job
    store and GitHub are as they were. *)
Theorem aware_date_raises E j w rn num iid body sender t :
  subscript2 j "repository" "full_name" = inr (JStr rn) ->
  subscript2 j "issue" "number" = inr (JNum num) ->
  subscript2 j "comment" "body" = inr (JStr body) ->
  subscript2 j "sender" "login" = inr (JStr sender) ->
  gh_get_repo (g E) (calls w) rn = true ->
  gh_get_issue (g E) (calls w) rn num = Some iid ->
  gh_get_collaborator_permission (g E) (calls w) rn sender = Some "admin" ->
  Py.contains (Py.lower (trigger E)) (Py.lower body) = true ->
  dateparser_parse E (now E) (Py.partition "autoclose" body).2 = Some (Aware t) ->
  let '(w', r) := issue_comment_created E j w in
  r = inl TypeError /\ jobs w' = jobs w /\ calls w' = calls w.
Proof.
  intros Hrn Hnum Hbody Hsender Hrepo Hissue Hperm Htrigger Hparse.
  assert (Hcmd : is_command E body "admin" = true).
  { unfold is_command. by rewrite Htrigger. }
  rewrite (command_without_future_date E j w rn num iid body sender "admin"); try done.
  - by rewrite Hparse.
  - intros closedate. rewrite Hparse. discriminate.
Qed.

Lemma aware_date_raises_witness :
  issue_comment_created example.E
    (example.comment_payload "alice" "@bot autoclose tomorrow UTC") example.pending
  = (mkWorld (jobs example.pending) [] ["Trigger: @bot autoclose"; "Perm: admin"],
     inl TypeError).
Proof.
  pose proof (aware_date_raises example.E
                (example.comment_payload "alice" "@bot autoclose tomorrow UTC")
                example.pending "acme/repo" 42 1042 "@bot autoclose tomorrow UTC" "alice"
                (1700000000 + 86400)
                eq_refl eq_refl eq_refl eq_refl eq_refl eq_refl eq_refl eq_refl eq_refl) as H.
  destruct (issue_comment_created example.E _ example.pending) as [[js cs ls] r] eqn:Hrun.
  destruct H as (-> & Hjobs & Hcalls). cbn [jobs calls] in Hjobs, Hcalls. subst js cs.
  f_equal. apply (f_equal (fun p => logs p.1)) in Hrun. cbn [fst logs] in Hrun.
  rewrite <- Hrun. reflexivity.
Defined.

(** X16. [issue_labeled] schedules before it comments: when GitHub refuses
    the explanatory comment the handler raises, and the close of the issue
    stays scheduled. *)
Theorem refused_comment_leaves_job_scheduled E j w rn num iid :
  subscript2 j "repository" "full_name" = inr (JStr rn) ->
  subscript2 j "issue" "number" = inr (JNum num) ->
  subscript2 j "label" "name" = inr (JStr triggerlabel) ->
  gh_get_repo (g E) (calls w) rn = true ->
  gh_get_issue (g E) (calls w) rn num = Some iid ->
  gh_accepts (g E) (calls w) (CreateComment rn num autoclosemsg) = false ->
  let '(w', r) := issue_labeled E j w in
  r = inl GithubException
  /\ jobs w' = <[make_id rn num := mkJob (now E + one_week) (rn, num)]> (jobs w)
  /\ calls w' = calls w.
Proof.
  intros Hrn Hnum Hlbl Hrepo Hissue Hcomment.
  unfold issue_labeled.
  rewrite (bind_ok _ _ _ _ _ (eq_trans (getitem2_run _ _ _ _) (f_equal _ Hrn))).
  rewrite (bind_ok _ _ _ _ _ (eq_trans (getitem2_run _ _ _ _) (f_equal _ Hnum))).
  rewrite (bind_ok _ _ _ _ _ (get_repo_json_found _ _ _ Hrepo)).
  rewrite (bind_ok _ _ _ _ _ (get_issue_json_found _ _ _ _ _ Hissue)).
  rewrite (bind_ok _ _ _ _ _ (eq_trans (getitem2_run _ _ _ _) (f_equal _ Hlbl))).
  cbn [json_eq_str]. rewrite String.eqb_refl.
  rewrite bind_run, bind_run, schedule_close_issue_run.
  unfold create_comment. rewrite api_call_run.
  cbn [calls jobs logs full_name repository number]. by rewrite Hcomment.
Qed.

Lemma refused_comment_leaves_job_scheduled_witness :
  let E := example.deployment
             (example.github_with
                (fun c => match c with CreateComment _ _ _ => false | _ => true end)) in
  issue_labeled E (example.labeled_payload "autoclose") example.idle
  = (mkWorld {[ "acme/repo@@@42" := mkJob 1700604800 ("acme/repo", 42%Z) ]} []
       ["[-] Scheduling issue #42 for autoclose (id: acme/repo@@@42)"],
     inl GithubException).
Proof.
  intros E.
  pose proof (refused_comment_leaves_job_scheduled E (example.labeled_payload "autoclose")
                example.idle "acme/repo" 42 1042
                eq_refl eq_refl eq_refl eq_refl eq_refl eq_refl) as H.
  destruct (issue_labeled E _ example.idle) as [[js cs ls] r] eqn:Hrun.
  destruct H as (-> & Hjobs & Hcalls). cbn [jobs calls] in Hjobs, Hcalls. subst js cs.
  f_equal. apply (f_equal (fun p => logs p.1)) in Hrun. cbn [fst logs] in Hrun.
  rewrite <- Hrun. reflexivity.
Defined.



(** X18. When GitHub does not find the repository or the issue of a
    label-applied event, [issue_labeled] raises before it schedules: the
    world is left as it was. *)
Theorem issue_labeled_unknown_issue E j w rn num :
  subscript2 j "repository" "full_name" = inr (JStr rn) ->
  subscript2 j "issue" "number" = inr (JNum num) ->
  gh_get_repo (g E) (calls w) rn = false
  \/ gh_get_issue (g E) (calls w) rn num = None ->
  issue_labeled E j w = (w, inl GithubException).
Proof.
  intros Hrn Hnum Hmissing. unfold issue_labeled.
  rewrite (bind_ok _ _ _ _ _ (eq_trans (getitem2_run _ _ _ _) (f_equal _ Hrn))).
  rewrite (bind_ok _ _ _ _ _ (eq_trans (getitem2_run _ _ _ _) (f_equal _ Hnum))).
  rewrite bind_run. cbn [get_repo_json]. rewrite get_repo_run.
  destruct (gh_get_repo (g E) (calls w) rn) eqn:Hrepo; [|done].
  destruct Hmissing as [|Hissue]; [done|].
  rewrite bind_run. cbn [get_issue_json]. rewrite get_issue_run. cbn [full_name].
  by rewrite Hissue.
Qed.

Lemma issue_labeled_unknown_issue_witness :
  issue_labeled example.E_no_repo (example.labeled_payload "autoclose") example.pending
  = (example.pending, inl GithubException).
Proof.
  exact (issue_labeled_unknown_issue example.E_no_repo
           (example.labeled_payload "autoclose") example.pending "acme/repo" 42
           eq_refl eq_refl (or_introl eq_refl)).
Defined.

(** ** Events in sequence *)

Section sequences.

(** The label handler on the trigger label, GitHub accepting the comment. *)
Lemma issue_labeled_trigger_run E j w rn num iid :
  subscript2 j "repository" "full_name" = inr (JStr rn) ->
  subscript2 j "issue" "number" = inr (JNum num) ->
  subscript2 j "label" "name" = inr (JStr triggerlabel) ->
  gh_get_repo (g E) (calls w) rn = true ->
  gh_get_issue (g E) (calls w) rn num = Some iid ->
  gh_accepts (g E) (calls w) (CreateComment rn num autoclosemsg) = true ->
  issue_labeled E j w
  = (mkWorld (<[make_id rn num := mkJob (now E + one_week) (rn, num)]> (jobs w))
       (calls w ++ [CreateComment rn num autoclosemsg])
       (logs w ++ ["[-] Scheduling issue #" +:+ Py.str_int num +:+
                   " for autoclose (id: " +:+ make_id rn num +:+ ")"]),
     inr OK_200).
Proof.
  intros Hrn Hnum Hlbl Hrepo Hissue Hcomment.
  unfold issue_labeled.
  rewrite (bind_ok _ _ _ _ _ (eq_trans (getitem2_run _ _ _ _) (f_equal _ Hrn))).
  rewrite (bind_ok _ _ _ _ _ (eq_trans (getitem2_run _ _ _ _) (f_equal _ Hnum))).
  rewrite (bind_ok _ _ _ _ _ (get_repo_json_found _ _ _ Hrepo)).
  rewrite (bind_ok _ _ _ _ _ (get_issue_json_found _ _ _ _ _ Hissue)).
  rewrite (bind_ok _ _ _ _ _ (eq_trans (getitem2_run _ _ _ _) (f_equal _ Hlbl))).
  cbn [json_eq_str]. rewrite String.eqb_refl.
  rewrite bind_run, bind_run, schedule_close_issue_run.
  unfold create_comment. rewrite api_call_run.
  cbn [calls jobs logs full_name repository number]. by rewrite Hcomment.
Qed.

(** The job store after an administrator's command with a naive future
    date. *)
Lemma admin_command_jobs E j w rn num iid body sender closedate cid :
  subscript2 j "repository" "full_name" = inr (JStr rn) ->
  subscript2 j "issue" "number" = inr (JNum num) ->
  subscript2 j "comment" "body" = inr (JStr body) ->
  subscript2 j "sender" "login" = inr (JStr sender) ->
  subscript2 j "comment" "id" = inr (JNum cid) ->
  gh_get_repo (g E) (calls w) rn = true ->
  gh_get_issue (g E) (calls w) rn num = Some iid ->
  gh_get_collaborator_permission (g E) (calls w) rn sender = Some "admin" ->
  Py.contains (Py.lower (trigger E)) (Py.lower body) = true ->
  dateparser_parse E (now E) (Py.partition "autoclose" body).2 = Some (Naive closedate) ->
  (now E < closedate)%Z ->
  jobs (issue_comment_created E j w).1
  = <[make_id rn num := mkJob closedate (rn, num)]> (jobs w).
Proof.
  intros Hrn Hnum Hbody Hsender Hcid Hrepo Hissue Hperm Htrigger Hparse Hfuture.
  rewrite (issue_comment_created_run E j w rn num iid body sender "admin") by done.
  assert (Hcmd : is_command E body "admin" = true).
  { unfold is_command. by rewrite Htrigger. }
  cbv zeta. rewrite Hcmd, Hparse. apply Z.ltb_lt in Hfuture. rewrite Hfuture.
  rewrite bind_run, bind_run, schedule_close_issue_run.
  cbn [jobs calls logs full_name repository number decision_world].
  rewrite bind_run. unfold add_to_labels. rewrite api_call_run.
  cbn [jobs calls logs full_name repository number].
  destruct (gh_accepts _ _ _); [|done].
  rewrite bind_run, getitem2_run, Hcid, bind_run.
  cbn [get_comment_json]. unfold get_comment, api_read.
  cbn [jobs calls logs full_name repository number].
  destruct (gh_get_comment _ _ _ _ _); [|done].
  unfold create_reaction. rewrite api_call_run.
  cbn [jobs calls logs full_name repository number].
  by destruct (gh_accepts _ _ _).
Qed.

End sequences.

(** X19. The label, then an administrator's command: after the trigger
    label has scheduled the close of an issue, a command with a naive
    future date for the same issue leaves exactly one job under the
    issue's id, due at the date of the command; the date set by the label
    is gone and no other job is touched.  The two events may see different
    clocks. *)
Theorem label_then_command_reschedules E1 E2 labeled commented w
        rn num iid body sender closedate cid :
  subscript2 labeled "repository" "full_name" = inr (JStr rn) ->
  subscript2 labeled "issue" "number" = inr (JNum num) ->
  subscript2 labeled "label" "name" = inr (JStr triggerlabel) ->
  subscript2 commented "repository" "full_name" = inr (JStr rn) ->
  subscript2 commented "issue" "number" = inr (JNum num) ->
  subscript2 commented "comment" "body" = inr (JStr body) ->
  subscript2 commented "sender" "login" = inr (JStr sender) ->
  subscript2 commented "comment" "id" = inr (JNum cid) ->
  cooperative (g E1) rn num iid ->
  cooperative (g E2) rn num iid ->
  (forall cs, gh_get_collaborator_permission (g E2) cs rn sender = Some "admin") ->
  Py.contains (Py.lower (trigger E2)) (Py.lower body) = true ->
  dateparser_parse E2 (now E2) (Py.partition "autoclose" body).2
  = Some (Naive closedate) ->
  (now E2 < closedate)%Z ->
  let w1 := (issue_labeled E1 labeled w).1 in
  let w2 := (issue_comment_created E2 commented w1).1 in
  let job := mkJob closedate (rn, num) in
  jobs w1 !! make_id rn num = Some (mkJob (now E1 + one_week) (rn, num))
  /\ jobs w2 = <[make_id rn num := job]> (jobs w)
  /\ filter (fun kv => kv.1 = make_id rn num) (map_to_list (jobs w2)) = [(make_id rn num, job)].
Proof.
  intros Hrn1 Hnum1 Hlbl Hrn2 Hnum2 Hbody Hsender Hcid
         (Hrepo1 & Hissue1 & _ & Haccept1) (Hrepo2 & Hissue2 & _ & _)
         Hperm Htrigger Hparse Hfuture w1 w2 job.
  assert (Hw1 : jobs w1 = <[make_id rn num := mkJob (now E1 + one_week) (rn, num)]> (jobs w)).
  { subst w1. by rewrite (issue_labeled_trigger_run E1 labeled w rn num iid). }
  assert (Hw2 : jobs w2 = <[make_id rn num := job]> (jobs w)).
  { subst w2. rewrite (admin_command_jobs E2 commented w1 rn num iid body sender closedate cid)
      by done.
    rewrite Hw1. apply insert_insert_eq. }
  split; [rewrite Hw1; apply lookup_insert_eq|]. split; [done|].
  apply pending_jobs_of_id. rewrite Hw2. apply lookup_insert_eq.
Qed.

Lemma label_then_command_reschedules_witness :
  let w1 := (issue_labeled example.E (example.labeled_payload "autoclose") example.idle).1 in
  let w2 := (issue_comment_created example.E
               (example.comment_payload "alice" "@bot autoclose in 3 days") w1).1 in
  cooperative (g example.E) "acme/repo" 42 1042
  /\ jobs w2 = <[make_id "acme/repo" 42 :=
                  mkJob (1700000000 + 3 * 86400) ("acme/repo", 42%Z)]> ∅.
Proof.
  intros w1 w2.
  assert (Hcoop : cooperative (g example.E) "acme/repo" 42 1042) by done.
  split; [exact Hcoop|].
  exact (proj1 (proj2 (label_then_command_reschedules example.E example.E
           (example.labeled_payload "autoclose")
           (example.comment_payload "alice" "@bot autoclose in 3 days") example.idle
           "acme/repo" 42 1042 "@bot autoclose in 3 days" "alice"
           (1700000000 + 3 * 86400) 7
           eq_refl eq_refl eq_refl eq_refl eq_refl eq_refl eq_refl eq_refl
           Hcoop Hcoop (fun _ => eq_refl) eq_refl eq_refl eq_refl))).
Defined.



(** X21. [cancel_close_issue] undoes [schedule_close_issue] for an issue
    whose internal id is its number: the job is removed without error and
    the store is the one before the schedule, without a job for the
    issue. *)
Theorem cancel_undoes_schedule_when_ids_agree issue when w :
  id issue = number issue ->
  let i := make_id (full_name (repository issue)) (number issue) in
  let '(w', r) := cancel_close_issue issue (schedule_close_issue issue when w).1 in
  r = inr tt /\ jobs w' = delete i (jobs w) /\ jobs w' !! i = None.
Proof.
  intros Hid i. rewrite cancel_close_issue_run, schedule_close_issue_run, Hid.
  cbn [fst jobs calls logs]. fold i.
  erewrite remove_job_present by (cbn [jobs]; apply lookup_insert_eq).
  cbn [jobs]. rewrite delete_insert_eq. repeat split. apply lookup_delete_eq.
Qed.

Lemma cancel_undoes_schedule_when_ids_agree_witness :
  let issue := mkIssue (mkRepository "acme/repo") 42 42 in
  (cancel_close_issue issue (schedule_close_issue issue 1700604800 example.idle).1).2
  = inr tt.
Proof.
  intros issue.
  pose proof (cancel_undoes_schedule_when_ids_agree issue 1700604800 example.idle eq_refl)
    as H.
  cbv zeta in H.
  destruct (cancel_close_issue issue _) as [w' r]. by destruct H as [-> _].
Defined.
